(** * Volunteer management app: participation, reporting and notifications

  A shallow embedding of the consistency-relevant code of the volunteer
  management application:

  - [database-schema.sql]           -> [Schema], [Store]
  - [EventsScreen] (fetchEvents, handleJoinEvent, handleLeaveEvent)
                                    -> [EventsScreen]
  - [AdminScreen] (fetchStats, fetchEventReports, fetchVolunteerReports,
    attendance percentage)          -> [AdminScreen], [JSNumber]
  - [NotificationContext]           -> [NotificationContext]
  - [Dashboard] (fetchDashboardData) -> [Dashboard]
  - the report endpoint of the server -> [Server]

  Tables are lists of rows in storage order.  Timestamps are integers
  (milliseconds since the epoch, the value of [new Date(s).getTime()]);
  ids, names and messages are strings.  Every function of the app that
  talks to the store takes the key of its client, and has the branch the
  source takes when the store reports an error. *)

From Stdlib Require Import ZArith List String Lia.
From Stdlib Require Import SpecFloat.
From stdpp Require Import base list strings gmap sorting.

Local Open Scope string_scope.

(* ===================================================================== *)
(** ** The schema ([database-schema.sql]) *)
(* ===================================================================== *)

Module Schema.

(** [CHECK (status IN ('joined', 'attended', 'cancelled'))] *)
Inductive status := joined | attended | cancelled.

(** [CHECK (role IN ('volunteer', 'admin'))] *)
Inductive role := volunteer | admin.

(** [CHECK (type IN ('event', 'general', 'alert'))] *)
Inductive notification_type := event | general | alert.

#[export] Instance status_eq_dec : EqDecision status.
Proof. solve_decision. Defined.
#[export] Instance role_eq_dec : EqDecision role.
Proof. solve_decision. Defined.
#[export] Instance notification_type_eq_dec : EqDecision notification_type.
Proof. solve_decision. Defined.

(** [public.users]; [name] is nullable. *)
Record user_row := {
  u_id : string;
  u_email : string;
  u_name : option string;
  u_role : role;
}.

(** [public.events] *)
Record event_row := {
  e_id : string;
  e_title : string;
  e_description : string;
  e_date : Z;
  e_location : string;
  e_created_by : string;
}.

(** [public.event_participants]; [hours INTEGER DEFAULT 0] is nullable. *)
Record participant_row := {
  p_id : string;
  p_event_id : string;
  p_volunteer_id : string;
  p_status : status;
  p_hours : option Z;
  p_created_at : Z;
  p_updated_at : Z;
}.

(** [public.notifications] *)
Record notification_row := {
  n_id : string;
  n_user_id : string;
  n_message : string;
  n_type : notification_type;
  n_read_status : bool;
  n_created_at : Z;
}.

#[export] Instance user_row_eq_dec : EqDecision user_row.
Proof. solve_decision. Defined.
#[export] Instance event_row_eq_dec : EqDecision event_row.
Proof. solve_decision. Defined.
#[export] Instance participant_row_eq_dec : EqDecision participant_row.
Proof. solve_decision. Defined.
#[export] Instance notification_row_eq_dec : EqDecision notification_row.
Proof. solve_decision. Defined.

Record db := {
  users : list user_row;
  events : list event_row;
  event_participants : list participant_row;
  notifications : list notification_row;
}.

Definition set_event_participants (ps : list participant_row) (d : db) : db :=
  {| users := users d; events := events d;
     event_participants := ps; notifications := notifications d |}.

Definition set_notifications (ns : list notification_row) (d : db) : db :=
  {| users := users d; events := events d;
     event_participants := event_participants d; notifications := ns |}.

(** [UNIQUE(event_id, volunteer_id)] on [event_participants]. *)
Definition pair_key (p : participant_row) : string * string :=
  (p_event_id p, p_volunteer_id p).

Definition unique_event_volunteer (d : db) : Prop :=
  NoDup (pair_key <$> event_participants d).

End Schema.
Export Schema.

(* ===================================================================== *)
(** ** The store: constraints, row-level security and queries *)
(* ===================================================================== *)

Module Store.

(** Errors the database reports to the client. *)
Inductive pg_error :=
| UniqueViolation       (* 23505: duplicate key violates a unique constraint *)
| ForeignKeyViolation   (* 23503: referenced row absent *)
| RlsViolation          (* 42501: new row violates a row-level security policy *)
| PolicyRecursion.      (* 42P17: infinite recursion detected in policy for
                           relation "users" *)

#[export] Instance pg_error_eq_dec : EqDecision pg_error.
Proof. solve_decision. Defined.

(** The key a Supabase client is created with.  The app's client is
    [createClient(supabaseUrl, publicAnonKey)]: its statements run under the
    row-level policies of the schema.  The server's client is created with
    [SUPABASE_SERVICE_ROLE_KEY], which no policy restricts.  The value of
    [publicAnonKey] is imported from [utils/supabase/info]; the functions of
    the app take the key as a parameter, [anon_key] being what the app
    names. *)
Inductive api_key := anon_key | service_role_key.

#[export] Instance api_key_eq_dec : EqDecision api_key.
Proof. solve_decision. Defined.

(** The policy "Admins can view all users" is a policy on [users] whose
    [USING] clause selects from [users]:
    [EXISTS (SELECT 1 FROM public.users WHERE id = auth.uid() AND role = 'admin')].
    Expanding the policies of a statement that reads [users] would therefore
    never end: Postgres detects it and reports 42P17 instead of running the
    statement, whoever is signed in and whatever the tables hold.  The same subquery
    stands in "Admins can manage all participations" ([FOR ALL] on
    [event_participants]) and in "Admins can insert notifications", so that
    under the policies every statement that reads or writes [users] or
    [event_participants], and every insert into [notifications], is refused.
    Selects on [events] alone, and selects and updates on [notifications],
    have policies without that subquery and run. *)
Definition refused (key : api_key) : option pg_error :=
  match key with
  | anon_key => Some PolicyRecursion
  | service_role_key => None
  end.

(** Policy "Users can view their own notifications". *)
Definition visible_notifications (uid : string) (d : db) : list notification_row :=
  filter (λ n, n_user_id n = uid) (notifications d).

(** The rows of [event_participants] for one (event, volunteer) pair. *)
Definition rows_for (eid vid : string) (d : db) : list participant_row :=
  filter (λ p, p_event_id p = eid ∧ p_volunteer_id p = vid) (event_participants d).

(** [INSERT INTO event_participants (event_id, volunteer_id, status)] by a
    client holding [key].  [new_id] is the value of [gen_random_uuid()] and
    [now] the value of [NOW()]; [hours] takes its default 0.  The insert
    policies of the table include "Admins can manage all participations":
    under the policies the statement is refused.  Otherwise the unique index
    on (event_id, volunteer_id) is checked, then the foreign keys. *)
Definition insert_event_participant (key : api_key) (new_id : string) (now : Z)
    (eid vid : string) (st : status) (d : db) : db * option pg_error :=
  match refused key with
  | Some err => (d, Some err)
  | None =>
    match rows_for eid vid d with
    | _ :: _ => (d, Some UniqueViolation)
    | [] =>
      if bool_decide (Exists (λ e, e_id e = eid) (events d))
         && bool_decide (Exists (λ u, u_id u = vid) (users d))
      then (set_event_participants
              (event_participants d ++
               [{| p_id := new_id; p_event_id := eid; p_volunteer_id := vid;
                   p_status := st; p_hours := Some 0%Z;
                   p_created_at := now; p_updated_at := now |}]) d,
            None)
      else (d, Some ForeignKeyViolation)
    end
  end.

(** [DELETE FROM event_participants WHERE event_id = eid AND volunteer_id = vid]
    by a client holding [key].  The delete policies of the table include
    "Admins can manage all participations": under the policies the statement
    is refused.  Otherwise the rows of the pair are deleted; a statement that
    deletes no row is not an error. *)
Definition delete_event_participant (key : api_key) (eid vid : string) (d : db)
    : db * option pg_error :=
  match refused key with
  | Some err => (d, Some err)
  | None =>
    (set_event_participants
       (filter (λ p, ¬ (p_event_id p = eid ∧ p_volunteer_id p = vid))
               (event_participants d)) d,
     None)
  end.

Definition mark_read (n : notification_row) : notification_row :=
  {| n_id := n_id n; n_user_id := n_user_id n; n_message := n_message n;
     n_type := n_type n; n_read_status := true; n_created_at := n_created_at n |}.

(** [UPDATE notifications SET read_status = true WHERE id = nid].  The
    policy "Users can update their own notifications" ([USING (auth.uid() =
    user_id)]) restricts the rows the statement sees; rows of other users
    are skipped silently and the statement reports no error. *)
Definition update_notification_read (uid nid : string) (d : db)
    : db * option pg_error :=
  (set_notifications
     (fmap (λ n, if decide (n_id n = nid ∧ n_user_id n = uid)
                then mark_read n else n)
          (notifications d)) d,
   None).

(** Resource embedding [event_participants(...)] under an event: the rows
    whose [event_id] references the event, restricted by the filters put on
    embedded columns ([.eq('event_participants.col', v)]). *)
Definition embed_event_participants (P : participant_row → Prop)
    `{∀ p, Decision (P p)} (d : db) (e : event_row) : list participant_row :=
  filter (λ p, p_event_id p = e_id e ∧ P p) (event_participants d).

(** Resource embedding [event_participants(...)] under a user, through the
    foreign key [volunteer_id]. *)
Definition embed_user_participants (d : db) (u : user_row) : list participant_row :=
  filter (λ p, p_volunteer_id p = u_id u) (event_participants d).

(** Join hint of an embedding: with [!left] (the default) a filter on
    embedded columns only restricts the embedded rows; with [!inner] it also
    drops the top-level rows that are left without embedded rows. *)
Inductive embed_hint := EmbedLeft | EmbedInner.

Definition keep_top_level {A B} (h : embed_hint) (rows : list (A * list B))
    : list (A * list B) :=
  match h with
  | EmbedLeft => rows
  | EmbedInner => filter (λ r, r.2 ≠ []) rows
  end.

(** [.order('date', { ascending: true })] and [{ ascending: false }]. *)
Definition date_asc (e1 e2 : event_row) : Prop := (e_date e1 ≤ e_date e2)%Z.
Definition date_desc (e1 e2 : event_row) : Prop := (e_date e2 ≤ e_date e1)%Z.

#[export] Instance date_asc_dec e1 e2 : Decision (date_asc e1 e2).
Proof. unfold date_asc. apply _. Defined.
#[export] Instance date_desc_dec e1 e2 : Decision (date_desc e1 e2).
Proof. unfold date_desc. apply _. Defined.

(** [.order('created_at', { ascending: false })] on notifications. *)
Definition created_desc (n1 n2 : notification_row) : Prop :=
  (n_created_at n2 ≤ n_created_at n1)%Z.

#[export] Instance created_desc_dec n1 n2 : Decision (created_desc n1 n2).
Proof. unfold created_desc. apply _. Defined.

(** [.order('name', { ascending: true })] on users: byte order on the
    text, nulls last. *)
Definition name_asc (u1 u2 : user_row) : Prop :=
  match u_name u1, u_name u2 with
  | Some a, Some b => String.leb a b = true
  | Some _, None => True
  | None, Some _ => False
  | None, None => True
  end.

#[export] Instance name_asc_dec u1 u2 : Decision (name_asc u1 u2).
Proof. unfold name_asc. destruct (u_name u1), (u_name u2); apply _. Defined.

(** [UPDATE notifications SET read_status = true
           WHERE user_id = vid AND read_status = false], seen through the same
    update policy. *)
Definition update_all_notifications_read (uid vid : string) (d : db)
    : db * option pg_error :=
  (set_notifications
     (fmap (λ n, if decide ((n_user_id n = vid ∧ n_read_status n = false)
                            ∧ n_user_id n = uid)
                then mark_read n else n)
          (notifications d)) d,
   None).




(** [.single()]: the row when the query yields exactly one, no data
    otherwise. *)
Definition single {A} (rows : list A) : option A :=
  match rows with
  | [x] => Some x
  | _ => None
  end.

End Store.
Export Store.

(* ===================================================================== *)
(** ** JavaScript numbers (IEEE 754 binary64) *)
(* ===================================================================== *)

Module JSNumber.

Definition prec : Z := 53.
Definition emax : Z := 1024.

Definition number := spec_float.

(** The number denoted by an integer (exact below 2^53, rounded above). *)
Definition of_Z (z : Z) : number := binary_normalize prec emax z 0 false.
Definition of_nat (n : nat) : number := of_Z (Z.of_nat n).

(** [x / y] and [x * y]; neither throws: a zero divisor yields an infinity
    or [NaN]. *)
Definition div (x y : number) : number := SFdiv prec emax x y.
Definition mul (x y : number) : number := SFmul prec emax x y.

(** [x >= y] *)
Definition geb (x y : number) : bool := SFleb y x.

(** The decimal literals [0.7] and [0.5] are [tenths 7] and [tenths 5]: the
    binary64 number nearest to [n/10], which the correctly rounded quotient
    of the two integers is. *)
Definition tenths (n : Z) : number := div (of_Z n) (of_Z 10).

(** [Math.round(x)]: the integer nearest to [x], ties towards +infinity;
    a zero result keeps the sign of [x]; infinities and [NaN] are returned
    as they are. *)
Definition Math_round (x : number) : number :=
  match x with
  | S754_finite s m e =>
    if (0 <=? e)%Z then x
    else
      let sm := (if s then - Z.pos m else Z.pos m)%Z in
      let r := ((2 * sm + 2 ^ (- e)) / 2 ^ (- e + 1))%Z in
      if (r =? 0)%Z then S754_zero s else of_Z r
  | _ => x
  end.

(** The integer value of a number that is an integer. *)
Definition to_Z (x : number) : option Z :=
  match x with
  | S754_zero _ => Some 0%Z
  | S754_finite s m e =>
    if (0 <=? e)%Z
    then Some ((if s then - Z.pos m else Z.pos m) * 2 ^ e)%Z
    else if (Z.pos m mod 2 ^ (- e) =? 0)%Z
         then Some ((if s then - Z.pos m else Z.pos m) / 2 ^ (- e))%Z
         else None
  | _ => None
  end.

End JSNumber.

(* ===================================================================== *)
(** ** JavaScript strings *)
(* ===================================================================== *)

Module JSString.

(** [s.includes(t)]: [t] occurs in [s] at some position. *)
Fixpoint includes (s t : string) : bool :=
  String.prefix t s
  || match s with
     | EmptyString => false
     | String _ s' => includes s' t
     end.

(** [s.split(sep)] for a separator of one character. *)
Fixpoint split (sep : Ascii.ascii) (s : string) : list string :=
  match s with
  | EmptyString => [EmptyString]
  | String c s' =>
    if decide (c = sep) then EmptyString :: split sep s'
    else match split sep s' with
         | piece :: pieces => String c piece :: pieces
         | [] => [String c EmptyString]
         end
  end.

End JSString.

(* ===================================================================== *)
(** ** The events screen ([EventsScreen]) *)
(* ===================================================================== *)

Module EventsScreen.

(** [useState<'all' | 'upcoming' | 'joined'>] *)
Inductive filter_kind := filter_all | filter_upcoming | filter_joined.

(** An element of the [events] state: the fetched row with its embedded
    participant rows, and the three derived fields. *)
Record Event := {
  row : event_row;
  embedded : list participant_row;
  created_by_name : string;
  participant_count : nat;
  is_joined : bool;
}.

Inductive toast := toast_success (msg : string) | toast_error (msg : string).

(** What a handler reports: the error logged through [console.error] and the
    toast shown. *)
Record outcome := {
  error : option pg_error;
  shown : option toast;
}.

(** [s || dflt] on a nullable string. *)
Definition or_else (s : option string) (dflt : string) : string :=
  match s with
  | Some EmptyString | None => dflt
  | Some s' => s'
  end.

(** The filters [fetchEvents] puts on the embedded columns: none, except
    under the joined filter
    [.eq('event_participants.volunteer_id', user.id)
     .eq('event_participants.status', 'joined')]. *)
Definition embedded_filter (uid : string) (flt : filter_kind)
    (p : participant_row) : Prop :=
  match flt with
  | filter_joined => p_volunteer_id p = uid ∧ p_status p = joined
  | _ => True
  end.

#[export] Instance embedded_filter_dec uid flt p :
  Decision (embedded_filter uid flt p).
Proof. destruct flt; simpl; apply _. Defined.

(** The top-level filter: [.gte('date', now)] under the upcoming filter. *)
Definition top_level_filter (flt : filter_kind) (now : Z) (e : event_row) : Prop :=
  match flt with
  | filter_upcoming => (now ≤ e_date e)%Z
  | _ => True
  end.

#[export] Instance top_level_filter_dec flt now e :
  Decision (top_level_filter flt now e).
Proof. destruct flt; simpl; apply _. Defined.

(** [users:created_by(name)]: the name of the user the event's
    [created_by] references. *)
Definition creator_name (d : db) (e : event_row) : option string :=
  match filter (λ u, u_id u = e_created_by e) (users d) with
  | u :: _ => u_name u
  | [] => None
  end.

(** The body of [data?.map(event => ...)]. *)
Definition process (uid : string) (d : db)
    (r : event_row * list participant_row) : Event :=
  {| row := r.1;
     embedded := r.2;
     created_by_name := or_else (creator_name d r.1) "Unknown";
     participant_count := length r.2;
     is_joined :=
       bool_decide (Exists (λ p, p_volunteer_id p = uid ∧ p_status p = joined) r.2) |}.

(** What the query of [fetchEvents] yields when the store runs it, followed
    by the [data.map], for a given join hint of the embedding. *)
Definition fetchEvents_with (h : embed_hint) (uid : string) (flt : filter_kind)
    (now : Z) (d : db) : list Event :=
  let top := merge_sort date_asc (filter (top_level_filter flt now) (events d)) in
  let data :=
    keep_top_level h
      (fmap (λ e, (e, embed_event_participants (embedded_filter uid flt) d e)) top) in
  fmap (process uid d) data.

(** [fetchEvents], by a client holding [key]: the new value of the [events]
    state and the toast shown.  Without a signed-in user the function returns
    at once.  The select embeds [users] and [event_participants] (written
    [event_participants!left(...)]); when the store refuses it the function
    shows 'Failed to load events' and returns before [setEvents], so that the
    state keeps its previous value. *)
Definition fetchEvents (key : api_key) (user : option string) (flt : filter_kind)
    (now : Z) (d : db) (prev : list Event) : list Event * option toast :=
  match user with
  | None => (prev, None)
  | Some uid =>
    match refused key with
    | Some _ => (prev, Some (toast_error "Failed to load events"))
    | None => (fetchEvents_with EmbedLeft uid flt now d, None)
    end
  end.

(** [handleJoinEvent(eventId)], by a client holding [key]: the row inserted
    is the caller's own, with status joined.  On an error the handler shows
    'Failed to join event' and returns; the [fetchEvents()] that follows a
    success recomputes the [events] state from the new store. *)
Definition handleJoinEvent (key : api_key) (user : option string)
    (eventId new_id : string) (now : Z) (d : db) : db * outcome :=
  match user with
  | None => (d, {| error := None; shown := None |})
  | Some uid =>
    match insert_event_participant key new_id now eventId uid joined d with
    | (d', Some err) =>
      (d', {| error := Some err; shown := Some (toast_error "Failed to join event") |})
    | (d', None) =>
      (d', {| error := None;
              shown := Some (toast_success "Successfully joined the event!") |})
    end
  end.

(** [handleLeaveEvent(eventId)], by a client holding [key]: the caller's row
    for the event is deleted outright, whatever its status.  On an error the
    handler shows 'Failed to leave event' and returns. *)
Definition handleLeaveEvent (key : api_key) (user : option string)
    (eventId : string) (d : db) : db * outcome :=
  match user with
  | None => (d, {| error := None; shown := None |})
  | Some uid =>
    match delete_event_participant key eventId uid d with
    | (d', Some err) =>
      (d', {| error := Some err; shown := Some (toast_error "Failed to leave event") |})
    | (d', None) =>
      (d', {| error := None;
              shown := Some (toast_success "Successfully left the event") |})
    end
  end.

(** [filteredEvents]: the events whose title, description or location
    contains the search term, all in lower case.  [toLowerCase] is the
    method of JavaScript strings. *)
Definition filteredEvents (toLowerCase : string → string) (searchTerm : string)
    (events : list Event) : list Event :=
  filter (λ event,
            JSString.includes (toLowerCase (e_title (row event)))
                              (toLowerCase searchTerm)
            || JSString.includes (toLowerCase (e_description (row event)))
                                 (toLowerCase searchTerm)
            || JSString.includes (toLowerCase (e_location (row event)))
                                 (toLowerCase searchTerm) = true)
         events.

End EventsScreen.

(* ===================================================================== *)
(** ** The admin dashboard ([AdminScreen]) *)
(* ===================================================================== *)

Module AdminScreen.

Import JSNumber.

Record AdminStats := {
  totalVolunteers : nat;
  totalEvents : nat;
  totalParticipations : nat;
  activeVolunteers : nat;
}.

Record EventReport := {
  er_id : string;
  title : string;
  date : Z;
  location : string;
  participant_count : nat;
  attended_count : nat;
}.

(** [last_activity] is [None] for the empty string and [Some t] for
    [new Date(t).toISOString()]. *)
Record VolunteerReport := {
  vr_id : string;
  name : string;
  email : string;
  total_events : nat;
  total_hours : Z;
  last_activity : option Z;
}.

(** [count || 0] and [data?.map(...)] on the answer of a query the store
    may have refused: a refused query has neither count nor data. *)
Definition count_or_zero (key : api_key) (count : nat) : nat :=
  match refused key with
  | Some _ => 0
  | None => count
  end.

Definition data_or_nothing {A} (key : api_key) (data : list A) : list A :=
  match refused key with
  | Some _ => []
  | None => data
  end.

(** [fetchStats], by a client holding [key], run at time [now = Date.now()].
    Of its four queries those on [users] and [event_participants] pass
    through the policies with the subquery on [users]; the count of [events]
    does not.  The errors of the four answers are not looked at. *)
Definition fetchStats (key : api_key) (now : Z) (d : db) : AdminStats :=
  let activeVolunteersData :=
    data_or_nothing key
      (filter (λ p, (now - 30 * 24 * 60 * 60 * 1000 ≤ p_created_at p)%Z)
              (event_participants d)) in
  let uniqueActiveVolunteers :=
    size (list_to_set (p_volunteer_id <$> activeVolunteersData) : gset string) in
  {| totalVolunteers :=
       count_or_zero key (length (filter (λ u, u_role u = volunteer) (users d)));
     totalEvents := length (events d);
     totalParticipations := count_or_zero key (length (event_participants d));
     activeVolunteers := uniqueActiveVolunteers |}.

Definition event_report (d : db) (e : event_row) : EventReport :=
  let event_participants := embed_event_participants (λ _, True) d e in
  {| er_id := e_id e;
     title := e_title e;
     date := e_date e;
     location := e_location e;
     participant_count := length event_participants;
     attended_count :=
       length (filter (λ p, p_status p = attended) event_participants) |}.

(** [fetchEventReports], by a client holding [key]: the new value of the
    [eventReports] state, [prev] being its value before.  The select embeds
    [event_participants]; on an error the function returns before
    [setEventReports].  Otherwise:
    [.order('date', { ascending: false }).limit(10)]. *)
Definition fetchEventReports (key : api_key) (d : db) (prev : list EventReport)
    : list EventReport :=
  match refused key with
  | Some _ => prev
  | None => fmap (event_report d) (take 10 (merge_sort date_desc (events d)))
  end.

(** [p.hours || 0] *)
Definition hours_or_zero (p : participant_row) : Z :=
  match p_hours p with
  | Some h => h
  | None => 0
  end.

(** [Math.max(...xs)] on a list that is not empty. *)
Definition Math_max (x : Z) (xs : list Z) : Z := foldl Z.max x xs.

Definition volunteer_report (d : db) (volunteer : user_row) : VolunteerReport :=
  let participations := embed_user_participants d volunteer in
  let totalHours := foldl (λ sum p, (sum + hours_or_zero p)%Z) 0%Z participations in
  let lastActivity :=
    match p_created_at <$> participations with
    | t :: ts => Math_max t ts
    | [] => 0%Z
    end in
  {| vr_id := u_id volunteer;
     name := EventsScreen.or_else (u_name volunteer) (u_email volunteer);
     email := u_email volunteer;
     total_events := length participations;
     total_hours := totalHours;
     last_activity := if (0 <? lastActivity)%Z then Some lastActivity else None |}.

(** [fetchVolunteerReports], by a client holding [key]: the new value of
    the [volunteerReports] state, [prev] being its value before.  The select
    reads [users] and embeds [event_participants]; on an error the function
    returns before [setVolunteerReports].  Otherwise:
    [.eq('role', 'volunteer').order('name', { ascending: true })]. *)
Definition fetchVolunteerReports (key : api_key) (d : db)
    (prev : list VolunteerReport) : list VolunteerReport :=
  match refused key with
  | Some _ => prev
  | None =>
    fmap (volunteer_report d)
        (merge_sort name_asc (filter (λ u, u_role u = volunteer) (users d)))
  end.

(** The attendance percentage shown in the overview and in the events
    table:
    [participant_count > 0
       ? Math.round((attended_count / participant_count) * 100) : 0]. *)
Definition attendance_percent (ev : EventReport) : number :=
  if (0 <? participant_count ev)%nat
  then Math_round (mul (div (of_nat (attended_count ev))
                            (of_nat (participant_count ev)))
                       (of_nat 100))
  else of_nat 0.

(** The colour of the attendance badge in the events table. *)
Inductive badge := gray | green | yellow | red.

Definition attendance_badge (ev : EventReport) : badge :=
  if (participant_count ev =? 0)%nat then gray
  else if geb (div (of_nat (attended_count ev)) (of_nat (participant_count ev)))
              (tenths 7) then green
  else if geb (div (of_nat (attended_count ev)) (of_nat (participant_count ev)))
              (tenths 5) then yellow
  else red.

(** The same two expressions with every division instrumented: a division
    whose divisor is the count 0 is reported instead of evaluated. *)
Inductive checked (A : Type) := value (x : A) | division_by_zero.
Arguments value {A} x.
Arguments division_by_zero {A}.

Definition div_checked (x y : nat) : checked number :=
  match y with
  | O => division_by_zero
  | S _ => value (div (of_nat x) (of_nat y))
  end.

Definition attendance_percent_checked (ev : EventReport) : checked number :=
  if (0 <? participant_count ev)%nat
  then match div_checked (attended_count ev) (participant_count ev) with
       | value q => value (Math_round (mul q (of_nat 100)))
       | division_by_zero => division_by_zero
       end
  else value (of_nat 0).

Definition attendance_badge_checked (ev : EventReport) : checked badge :=
  if (participant_count ev =? 0)%nat then value gray
  else match div_checked (attended_count ev) (participant_count ev) with
       | division_by_zero => division_by_zero
       | value q =>
         if geb q (tenths 7) then value green
         else match div_checked (attended_count ev) (participant_count ev) with
              | division_by_zero => division_by_zero
              | value q' => if geb q' (tenths 5) then value yellow else value red
              end
       end.

End AdminScreen.

(* ===================================================================== *)
(** ** The notification context ([NotificationContext]) *)
(* ===================================================================== *)

Module NotificationContext.

(** [fetchNotifications]:
    [.eq('user_id', user.id).order('created_at', { ascending: false }).limit(50)].
    Without a signed-in user the state keeps its previous value. *)
Definition fetchNotifications (user : option string) (d : db)
    (prev : list notification_row) : list notification_row :=
  match user with
  | None => prev
  | Some uid =>
    take 50 (merge_sort created_desc
               (filter (λ n, n_user_id n = uid) (visible_notifications uid d)))
  end.

(** [notifications.filter(n => !n.read_status).length] *)
Definition unreadCount (notifications : list notification_row) : nat :=
  length (filter (λ n, n_read_status n = false) notifications).

(** The callback of the live subscription: the new row is put in front. *)
Definition on_insert (newNotification : notification_row)
    (prev : list notification_row) : list notification_row :=
  newNotification :: prev.

(** [markAsRead(notificationId)], in the session [session] ([auth.uid()] is
    null without one, and then no row passes the update policy).  Returns
    the store, the [notifications] state and the error of the update. *)
Definition markAsRead (session : option string) (notificationId : string)
    (d : db) (prev : list notification_row)
    : db * list notification_row * option pg_error :=
  let '(d', error) :=
    match session with
    | Some uid => update_notification_read uid notificationId d
    | None => (d, None)
    end in
  match error with
  | None =>
    (d',
     fmap (λ n, if decide (n_id n = notificationId) then mark_read n else n) prev,
     None)
  | Some err => (d', prev, Some err)
  end.

(** [markAllAsRead()], the session being that of [user]. *)
Definition markAllAsRead (user : option string) (d : db)
    (prev : list notification_row)
    : db * list notification_row * option pg_error :=
  match user with
  | None => (d, prev, None)
  | Some uid =>
    match update_all_notifications_read uid uid d with
    | (d', None) => (d', fmap mark_read prev, None)
    | (d', Some err) => (d', prev, Some err)
    end
  end.


End NotificationContext.

(* ===================================================================== *)
(** ** The home screen ([Dashboard]) *)
(* ===================================================================== *)

Module Dashboard.

Record Event := {
  row : event_row;
  participant_count : nat;
}.





(** [notifications.slice(0, 3)] *)
Definition recentNotifications (notifications : list notification_row)
    : list notification_row :=
  take 3 notifications.

End Dashboard.

(* ===================================================================== *)
(** ** The report endpoint of the server *)
(* ===================================================================== *)

Module Server.

Inductive body :=
| error_message (error : string)
| events_payload (events : list (event_row * list participant_row))
| volunteers_payload (volunteers : list (user_row * list participant_row)).

(** [c.json(body, code)] *)
Record response := {
  code : nat;
  payload : body;
}.

(** [c.req.header('Authorization')?.split(' ')[1]] *)
Definition accessToken (authorization : option string) : option string :=
  match authorization with
  | None => None
  | Some h => JSString.split Ascii.Space h !! 1
  end.

(** [GET /reports/:type].  [getUser] is [supabase.auth.getUser], giving the
    id of the user a token belongs to; the server's client holds the service
    role key, which no row-level policy restricts. *)
Definition reports (getUser : option string → option string)
    (authorization : option string) (reportType : string) (d : db) : response :=
  match getUser (accessToken authorization) with
  | None => {| code := 401; payload := error_message "Unauthorized" |}
  | Some uid =>
    let userProfile := single (filter (λ u, u_id u = uid) (users d)) in
    if bool_decide (u_role <$> userProfile ≠ Some admin)
    then {| code := 403; payload := error_message "Admin access required" |}
    else if decide (reportType = "events")
    then {| code := 200;
            payload :=
              events_payload
                (fmap (λ e, (e, embed_event_participants (λ _, True) d e))
                      (merge_sort date_desc (events d))) |}
    else if decide (reportType = "volunteers")
    then {| code := 200;
            payload :=
              volunteers_payload
                (fmap (λ u, (u, embed_user_participants d u))
                      (merge_sort name_asc
                         (filter (λ u, u_role u = volunteer) (users d)))) |}
    else {| code := 400; payload := error_message "Invalid report type" |}
  end.

End Server.

(* ===================================================================== *)
(** ** Reference definitions, in the words of the specification *)
(* ===================================================================== *)

Module Spec.

(** "participant_count(event) = count of non-cancelled Participation rows
    for that event" *)
Definition participant_count (d : db) (eid : string) : nat :=
  length (filter (λ p, p_event_id p = eid ∧ p_status p ≠ cancelled)
                 (event_participants d)).

(** "attended_count(event) = count with status=attended" *)
Definition attended_count (d : db) (eid : string) : nat :=
  length (filter (λ p, p_event_id p = eid ∧ p_status p = attended)
                 (event_participants d)).

(** The Participation rows of an event, whatever their status. *)
Definition row_count (d : db) (eid : string) : nat :=
  length (filter (λ p, p_event_id p = eid) (event_participants d)).


(** "total non-cancelled participations" of a volunteer *)
Definition non_cancelled_participations (d : db) (vid : string) : nat :=
  length (filter (λ p, p_volunteer_id p = vid ∧ p_status p ≠ cancelled)
                 (event_participants d)).

(** The Participation rows of a volunteer, whatever their status. *)
Definition participations (d : db) (vid : string) : list participant_row :=
  filter (λ p, p_volunteer_id p = vid) (event_participants d).

(** "sum of hours across all their Participation rows"; a row without
    hours adds nothing. *)
Definition total_hours (d : db) (vid : string) : Z :=
  foldr (λ p acc, (default 0 (p_hours p) + acc)%Z) 0%Z (participations d vid).

(** "timestamp of most recent Participation" *)
Definition most_recent (ps : list participant_row) (t : Z) : Prop :=
  t ∈ p_created_at <$> ps ∧ ∀ p, p ∈ ps → (p_created_at p ≤ t)%Z.

(** "within the trailing 30 days from now": the 30 days that end at
    [now], in milliseconds. *)
Definition thirty_days : Z := 2592000000.

Definition within_trailing_30_days (now t : Z) : Prop :=
  (now - thirty_days ≤ t ≤ now)%Z.

(** "the initial state without the row" *)
Definition without_row (r : participant_row) (d : db) : db :=
  set_event_participants (filter (λ p, p ≠ r) (event_participants d)) d.

(** "the number of distinct volunteer IDs appearing in Participation rows
    created within the trailing 30 days from now" *)
Definition active_volunteers (now : Z) (d : db) : nat :=
  size (list_to_set
          (p_volunteer_id <$>
             filter (λ p, (now - thirty_days ≤ p_created_at p ≤ now)%Z)
                    (event_participants d)) : gset string).

(** The notifications of a user, and "the true number of unread
    notifications" of that user. *)
Definition notifications_of (d : db) (uid : string) : list notification_row :=
  filter (λ n, n_user_id n = uid) (notifications d).

Definition true_unread (d : db) (uid : string) : nat :=
  length (filter (λ n, n_user_id n = uid ∧ n_read_status n = false)
                 (notifications d)).

End Spec.

(* ===================================================================== *)
(** ** Sample stores *)
(* ===================================================================== *)

Module Samples.

Definition mk_user (i : string) (r : role) : user_row :=
  {| u_id := i; u_email := i ++ "@srcs.org"; u_name := Some i; u_role := r |}.

Definition mk_event (i : string) (t : Z) : event_row :=
  {| e_id := i; e_title := "Event " ++ i; e_description := "";
     e_date := t; e_location := "Khartoum"; e_created_by := "a1" |}.

Definition mk_participant (i eid vid : string) (st : status) (h : Z) (t : Z)
    : participant_row :=
  {| p_id := i; p_event_id := eid; p_volunteer_id := vid; p_status := st;
     p_hours := Some h; p_created_at := t; p_updated_at := t |}.

Definition mk_notification (i uid : string) (rd : bool) (t : Z) : notification_row :=
  {| n_id := i; n_user_id := uid; n_message := "hello"; n_type := general;
     n_read_status := rd; n_created_at := t |}.

Definition people : list user_row :=
  [mk_user "a1" admin; mk_user "v1" volunteer; mk_user "v2" volunteer].

(** One event whose only participation row is cancelled. *)
Definition d_cancelled : db :=
  {| users := people;
     events := [mk_event "e1" 1000];
     event_participants := [mk_participant "p1" "e1" "v1" cancelled 0 500];
     notifications := [] |}.

(** One event nobody has joined yet. *)
Definition d_open : db :=
  {| users := people;
     events := [mk_event "e1" 1000];
     event_participants := [];
     notifications := [] |}.

(** v1 attended e1 for 4 hours. *)
Definition d_attended : db :=
  {| users := people;
     events := [mk_event "e1" 1000; mk_event "e2" 2000];
     event_participants := [mk_participant "p1" "e1" "v1" attended 4 500;
                            mk_participant "p2" "e1" "v2" joined 0 600];
     notifications := [] |}.

(** One unread notification addressed to v1. *)
Definition d_inbox : db :=
  {| users := people;
     events := [];
     event_participants := [];
     notifications := [mk_notification "n1" "v1" false 100] |}.

(** [k] unread notifications addressed to v1, created at times 0 .. k-1. *)
Definition d_flood (k : nat) : db :=
  {| users := people;
     events := [];
     event_participants := [];
     notifications :=
       (λ i, mk_notification (String (Ascii.ascii_of_nat (48 + i)) "") "v1" false
                             (Z.of_nat i)) <$> seq 0 k |}.

(** At time 3000000000, v1 joined two events in the last 30 days and v2
    one event long before. *)
Definition d_recent : db :=
  {| users := people;
     events := [mk_event "e1" 1000; mk_event "e2" 2000];
     event_participants := [mk_participant "p1" "e1" "v1" joined 0 2999999000;
                            mk_participant "p2" "e2" "v1" attended 4 2999999500;
                            mk_participant "p3" "e1" "v2" joined 0 100];
     notifications := [] |}.

(** Sixty notifications addressed to v1, created at times 0 .. 59: the
    forty oldest unread but for every fourth, the twenty newest read but for
    every fourth. *)
Definition d_mixed : db :=
  {| users := people;
     events := [];
     event_participants := [];
     notifications :=
       (λ i, mk_notification (String (Ascii.ascii_of_nat (48 + i)) "") "v1"
                             (if (i <? 40)%nat then (i mod 4 =? 0)%nat
                              else negb (i mod 4 =? 0)%nat)
                             (Z.of_nat i)) <$> seq 0 60 |}.

(** Eleven events, dated 1 .. 11. *)
Definition d_eleven : db :=
  {| users := people;
     events :=
       (λ i, mk_event (String (Ascii.ascii_of_nat (65 + i)) "") (Z.of_nat (S i)))
         <$> seq 0 11;
     event_participants := [];
     notifications := [] |}.

(** The percentage shown for [a] attended out of [p]. *)
Definition shown_percent (a p : nat) : option Z :=
  JSNumber.to_Z (AdminScreen.attendance_percent
    {| AdminScreen.er_id := ""; AdminScreen.title := ""; AdminScreen.date := 0;
       AdminScreen.location := ""; AdminScreen.participant_count := p;
       AdminScreen.attended_count := a |}).

(** A value of the [events] state of the events screen: a clean-up in
    Khartoum and a training in Omdurman. *)
Definition listed : list EventsScreen.Event :=
  [ {| EventsScreen.row :=
         {| e_id := "e1"; e_title := "Nile Clean-up";
            e_description := "Bring gloves"; e_date := 1000;
            e_location := "Khartoum"; e_created_by := "a1" |};
       EventsScreen.embedded := [];
       EventsScreen.created_by_name := "a1";
       EventsScreen.participant_count := 0;
       EventsScreen.is_joined := false |};
    {| EventsScreen.row :=
         {| e_id := "e2"; e_title := "First Aid Training";
            e_description := "Basics"; e_date := 2000;
            e_location := "Omdurman"; e_created_by := "a1" |};
       EventsScreen.embedded := [];
       EventsScreen.created_by_name := "a1";
       EventsScreen.participant_count := 0;
       EventsScreen.is_joined := false |} ].

(** Lower case on the letters A to Z, standing in for [toLowerCase] on
    texts of the ASCII range. *)
Definition ascii_lower_char (c : Ascii.ascii) : Ascii.ascii :=
  let n := Ascii.nat_of_ascii c in
  if (65 <=? n)%nat && (n <=? 90)%nat then Ascii.ascii_of_nat (n + 32) else c.

Fixpoint ascii_lower (s : string) : string :=
  match s with
  | EmptyString => EmptyString
  | String c s' => String (ascii_lower_char c) (ascii_lower s')
  end.

(** A token service knowing two tokens, of the admin a1 and of the
    volunteer v1. *)
Definition token_user (token : option string) : option string :=
  match token with
  | Some t => if decide (t = "tok-a1") then Some "a1"
              else if decide (t = "tok-v1") then Some "v1"
              else None
  | None => None
  end.

End Samples.

(* ===================================================================== *)
(** * Theorems *)
(* ===================================================================== *)

Section list_facts.
Context {A : Type}.

Lemma filter_and_True (P : A → Prop) `{∀ x, Decision (P x)} (l : list A) :
  filter (λ x, P x ∧ True) l = filter P l.
Proof. apply list_filter_iff. tauto. Qed.

Lemma filter_ext_elem_of (P Q : A → Prop) `{∀ x, Decision (P x)}
    `{∀ x, Decision (Q x)} (l : list A) :
  (∀ x, x ∈ l → P x ↔ Q x) → filter P l = filter Q l.
Proof.
  induction l as [|a l IH]; intros HPQ; [done|].
  rewrite !filter_cons.
  assert (P a ↔ Q a) as Ha by (apply HPQ; left).
  rewrite IH by (intros x Hx; apply HPQ; by right).
  destruct (decide (P a)), (decide (Q a)); tauto.
Qed.

Lemma NoDup_fmap_eq {B : Type} (f : A → B) (l : list A) (x y : A) :
  NoDup (f <$> l) → x ∈ l → y ∈ l → f x = f y → x = y.
Proof.
  induction l as [|a l IH]; intros Hnd Hx Hy Hf; [by apply elem_of_nil in Hx|].
  rewrite fmap_cons in Hnd. apply NoDup_cons in Hnd as [Hnotin Hnd].
  apply elem_of_cons in Hx as [->|Hx]; apply elem_of_cons in Hy as [->|Hy].
  - done.
  - exfalso. apply Hnotin. rewrite Hf. by apply list_elem_of_fmap_2.
  - exfalso. apply Hnotin. rewrite <- Hf. by apply list_elem_of_fmap_2.
  - by apply IH.
Qed.

Lemma filter_always (l : list A) : filter (λ _, True) l = l.
Proof. induction l as [|a l IH]; [done|]. by rewrite filter_cons_True, IH. Qed.

End list_facts.

(** Case analysis on the membership of a row in a table given in full. *)
Ltac each_row H :=
  simpl in H;
  repeat (apply elem_of_cons in H as [->|H]);
  [.. | by apply elem_of_nil in H].

Lemma embed_all_rows d e :
  embed_event_participants (λ _, True) d e
  = filter (λ p, p_event_id p = e_id e) (event_participants d).
Proof. unfold embed_event_participants. apply filter_and_True. Qed.

Lemma embed_all_length d e :
  length (embed_event_participants (λ _, True) d e) = Spec.row_count d (e_id e).
Proof. by rewrite embed_all_rows. Qed.

Lemma embed_all_attended d e :
  length (filter (λ p, p_status p = attended)
                 (embed_event_participants (λ _, True) d e))
  = Spec.attended_count d (e_id e).
Proof.
  rewrite embed_all_rows, list_filter_filter. unfold Spec.attended_count.
  f_equal. apply list_filter_iff. tauto.
Qed.

(* --------------------------------------------------------------------- *)
(** ** What the policies of the schema let through *)
(* --------------------------------------------------------------------- *)

Lemma refused_cases key :
  (key = service_role_key ∧ refused key = None)
  ∨ (key = anon_key ∧ refused key = Some PolicyRecursion).
Proof. destruct key; [right|left]; done. Qed.

Lemma fetchEventReports_answered key d prev :
  refused key = None →
  AdminScreen.fetchEventReports key d prev
  = AdminScreen.event_report d <$> take 10 (merge_sort date_desc (events d)).
Proof. unfold AdminScreen.fetchEventReports. by intros ->. Qed.

Lemma fetchEventReports_refused key d prev :
  refused key ≠ None → AdminScreen.fetchEventReports key d prev = prev.
Proof. unfold AdminScreen.fetchEventReports. by destruct (refused key). Qed.

Lemma fetchEvents_answered key uid flt now d prev :
  refused key = None →
  EventsScreen.fetchEvents key (Some uid) flt now d prev
  = (EventsScreen.fetchEvents_with EmbedLeft uid flt now d, None).
Proof. unfold EventsScreen.fetchEvents. by intros ->. Qed.

Lemma fetchEvents_refused key uid flt now d prev :
  refused key ≠ None →
  EventsScreen.fetchEvents key (Some uid) flt now d prev
  = (prev, Some (EventsScreen.toast_error "Failed to load events")).
Proof. unfold EventsScreen.fetchEvents. by destruct (refused key). Qed.

(* --------------------------------------------------------------------- *)
(** ** Participant counts *)
(* --------------------------------------------------------------------- *)

(** C1, as stated, fails.  In the app, whose client runs under the policies
    of the schema, the store refuses both queries: for the event e1, which
    has two non-cancelled Participation rows, one of them attended, neither
    the event report nor the events list holds an entry, and the list shows
    an error.  And where the store answers, a cancelled row is counted by
    both, while the number of non-cancelled rows is 0. *)
Lemma participant_count_counts_cancelled :
  (e_id <$> events Samples.d_attended = ["e1"; "e2"]
   ∧ Spec.participant_count Samples.d_attended "e1" = 2
   ∧ Spec.attended_count Samples.d_attended "e1" = 1
   ∧ AdminScreen.fetchEventReports anon_key Samples.d_attended [] = []
   ∧ EventsScreen.fetchEvents anon_key (Some "v2") EventsScreen.filter_all 0
       Samples.d_attended []
     = ([], Some (EventsScreen.toast_error "Failed to load events")))
  ∧ (AdminScreen.participant_count
       <$> AdminScreen.fetchEventReports service_role_key Samples.d_cancelled []
     = [1]
     ∧ EventsScreen.participant_count
         <$> (EventsScreen.fetchEvents service_role_key (Some "v2")
                EventsScreen.filter_all 0 Samples.d_cancelled []).1
       = [1]
     ∧ e_id <$> events Samples.d_cancelled = ["e1"]
     ∧ Spec.participant_count Samples.d_cancelled "e1" = 0).
Proof. vm_compute. done. Qed.

(** Under the joined filter the embedded rows are the caller's own rows of
    status joined, and the count shown is their number. *)
Example participant_count_under_joined_filter :
  (λ ev, (e_id (EventsScreen.row ev), EventsScreen.participant_count ev))
    <$> EventsScreen.fetchEvents_with EmbedLeft "v2" EventsScreen.filter_joined 0
          Samples.d_attended
  = [("e1", 1); ("e2", 0)]
  ∧ Spec.row_count Samples.d_attended "e1" = 2.
Proof. vm_compute. done. Qed.

(** C1 (amended): whenever the store answers the query, every record of the
    event report, and every entry of the events list under the filters "all"
    and "upcoming", has as participant_count the number of Participation
    rows of its event whatever their status (cancelled rows included), and
    every record of the report has as attended_count the number of the
    event's rows with status attended.  When the store refuses the query,
    the report and the list are left as they were. *)
Theorem participant_count_is_row_count (key : api_key) (d : db)
    (prev : list AdminScreen.EventReport) (prev' : list EventsScreen.Event) :
  (refused key = None →
   Forall (λ r, AdminScreen.participant_count r = Spec.row_count d (AdminScreen.er_id r)
                ∧ AdminScreen.attended_count r
                  = Spec.attended_count d (AdminScreen.er_id r))
          (AdminScreen.fetchEventReports key d prev)
   ∧ ∀ uid now,
       Forall (λ ev, EventsScreen.participant_count ev
                     = Spec.row_count d (e_id (EventsScreen.row ev)))
              ((EventsScreen.fetchEvents key (Some uid) EventsScreen.filter_all
                  now d prev').1
               ++ (EventsScreen.fetchEvents key (Some uid) EventsScreen.filter_upcoming
                     now d prev').1))
  ∧ (refused key ≠ None →
     AdminScreen.fetchEventReports key d prev = prev
     ∧ ∀ uid flt now,
         (EventsScreen.fetchEvents key (Some uid) flt now d prev').1 = prev').
Proof.
  split; intros Hkey.
  - split.
    + rewrite fetchEventReports_answered by done.
      apply Forall_fmap, Forall_forall.
      intros e _. simpl. by rewrite embed_all_length, embed_all_attended.
    + intros uid now. rewrite !fetchEvents_answered by done.
      apply Forall_app. split;
        simpl; unfold EventsScreen.fetchEvents_with; simpl;
        rewrite <- list_fmap_compose; apply Forall_fmap, Forall_forall;
        intros e _; simpl; apply embed_all_length.
  - split; [by apply fetchEventReports_refused|].
    intros uid flt now. by rewrite fetchEvents_refused.
Qed.

(** [participant_count_is_row_count] at work: the report on a store whose
    only Participation row is cancelled, the store answering; and the report
    left empty, the store refusing. *)
Lemma participant_count_is_row_count_witness :
  Forall (λ r, AdminScreen.participant_count r
               = Spec.row_count Samples.d_cancelled (AdminScreen.er_id r)
               ∧ AdminScreen.attended_count r
                 = Spec.attended_count Samples.d_cancelled (AdminScreen.er_id r))
         (AdminScreen.fetchEventReports service_role_key Samples.d_cancelled [])
  ∧ AdminScreen.fetchEventReports anon_key Samples.d_cancelled [] = [].
Proof.
  split.
  - refine (proj1 (proj1 (participant_count_is_row_count service_role_key
                            Samples.d_cancelled [] []) _)).
    reflexivity.
  - refine (proj1 (proj2 (participant_count_is_row_count anon_key
                            Samples.d_cancelled [] []) _)).
    discriminate.
Defined.

(* --------------------------------------------------------------------- *)
(** ** Joining and leaving *)
(* --------------------------------------------------------------------- *)

Lemma rows_for_nil_iff E V d :
  rows_for E V d = []
  ↔ ¬ ∃ p, p ∈ event_participants d ∧ p_event_id p = E ∧ p_volunteer_id p = V.
Proof.
  unfold rows_for. split.
  - intros Hnil (p & Hp & HE & HV).
    by eapply (filter_nil_not_elem_of _ _ p Hnil).
  - intros Hno. destruct (filter _ _) as [|p ps] eqn:Hf; [done|].
    exfalso. apply Hno. exists p.
    assert (p ∈ p :: ps) as Hin by left. rewrite <- Hf in Hin.
    apply list_elem_of_filter in Hin. tauto.
Qed.

(** A join the store refuses: the handler reports the error of the store and
    shows the failure toast; the store is as it was. *)
Lemma handleJoinEvent_refused key V E new_id now d err :
  refused key = Some err →
  EventsScreen.handleJoinEvent key (Some V) E new_id now d
  = (d, {| EventsScreen.error := Some err;
           EventsScreen.shown :=
             Some (EventsScreen.toast_error "Failed to join event") |}).
Proof.
  intros Hkey. unfold EventsScreen.handleJoinEvent, insert_event_participant.
  by rewrite Hkey.
Qed.

(** What [handleJoinEvent] does for a signed-in volunteer when the store
    runs the insert, case by case. *)
Lemma handleJoinEvent_cases key V E new_id now d :
  refused key = None →
  let new_row := {| p_id := new_id; p_event_id := E; p_volunteer_id := V;
                    p_status := joined; p_hours := Some 0%Z;
                    p_created_at := now; p_updated_at := now |} in
  (rows_for E V d ≠ []
   ∧ EventsScreen.handleJoinEvent key (Some V) E new_id now d
     = (d, {| EventsScreen.error := Some UniqueViolation;
              EventsScreen.shown :=
                Some (EventsScreen.toast_error "Failed to join event") |}))
  ∨ (rows_for E V d = []
     ∧ ¬ (Exists (λ e, e_id e = E) (events d) ∧ Exists (λ u, u_id u = V) (users d))
     ∧ EventsScreen.handleJoinEvent key (Some V) E new_id now d
       = (d, {| EventsScreen.error := Some ForeignKeyViolation;
                EventsScreen.shown :=
                  Some (EventsScreen.toast_error "Failed to join event") |}))
  ∨ (rows_for E V d = []
     ∧ (Exists (λ e, e_id e = E) (events d) ∧ Exists (λ u, u_id u = V) (users d))
     ∧ EventsScreen.handleJoinEvent key (Some V) E new_id now d
       = (set_event_participants (event_participants d ++ [new_row]) d,
          {| EventsScreen.error := None;
             EventsScreen.shown :=
               Some (EventsScreen.toast_success "Successfully joined the event!") |})).
Proof.
  intros Hkey new_row.
  unfold EventsScreen.handleJoinEvent, insert_event_participant. rewrite Hkey.
  destruct (rows_for E V d) as [|p ps] eqn:Hrows.
  - right.
    destruct (decide (Exists (λ e, e_id e = E) (events d))) as [He|He];
    destruct (decide (Exists (λ u, u_id u = V) (users d))) as [Hu|Hu].
    + right. rewrite !bool_decide_eq_true_2 by done. simpl. done.
    + left. rewrite (bool_decide_eq_false_2 (Exists (λ u, u_id u = V) _)) by done.
      rewrite andb_false_r. split; [done|]. split; [tauto|done].
    + left. rewrite (bool_decide_eq_false_2 (Exists (λ e, e_id e = E) _)) by done.
      simpl. split; [done|]. split; [tauto|done].
    + left. rewrite (bool_decide_eq_false_2 (Exists (λ e, e_id e = E) _)) by done.
      simpl. split; [done|]. split; [tauto|done].
  - left. done.
Qed.

(** C2, as stated, fails.  In the app, whose client runs under the policies
    of the schema, the store refuses the insert before any constraint is
    looked at: v1 cannot join e1 although no row exists for the pair, and the
    join of v2, who holds a joined row for e1, is rejected by the policies
    (42P17), not by the uniqueness constraint.  And where the store runs the
    insert, a cancelled row for the pair makes the join fail on the unique
    constraint although no non-cancelled row exists. *)
Lemma join_rejected_by_cancelled_row :
  (rows_for "e1" "v1" Samples.d_open = []
   ∧ EventsScreen.handleJoinEvent anon_key (Some "v1") "e1" "p1" 2000 Samples.d_open
     = (Samples.d_open,
        {| EventsScreen.error := Some PolicyRecursion;
           EventsScreen.shown :=
             Some (EventsScreen.toast_error "Failed to join event") |})
   ∧ p_status <$> rows_for "e1" "v2" Samples.d_attended = [joined]
   ∧ EventsScreen.error
       (EventsScreen.handleJoinEvent anon_key (Some "v2") "e1" "p3" 2000
          Samples.d_attended).2
     = Some PolicyRecursion)
  ∧ (EventsScreen.handleJoinEvent service_role_key (Some "v1") "e1" "p2" 2000
       Samples.d_cancelled
     = (Samples.d_cancelled,
        {| EventsScreen.error := Some UniqueViolation;
           EventsScreen.shown :=
             Some (EventsScreen.toast_error "Failed to join event") |})
     ∧ filter (λ p, p_status p ≠ cancelled)
              (rows_for "e1" "v1" Samples.d_cancelled) = []).
Proof. vm_compute. done. Qed.

(** C2 (amended): whenever the store does not refuse the insert outright,
    the join of volunteer V to event E is rejected on the unique constraint
    exactly when a Participation row of any status (cancelled included)
    already exists for the pair, and it succeeds exactly when no such row
    exists and the event and the volunteer exist; after a successful join
    the participant count of E (counting all rows, and counting the
    non-cancelled rows alike) is greater by exactly 1, and any further join
    of V to E is rejected on the unique constraint and leaves the store as it
    is.  A join that fails, for whatever reason, changes nothing and shows
    the failure toast; a join the store refuses reports the refusal. *)
Theorem join_unique_pair (key : api_key) (d d' : db) (V E new_id : string)
    (now : Z) (o : EventsScreen.outcome) :
  EventsScreen.handleJoinEvent key (Some V) E new_id now d = (d', o) →
  (refused key = None →
   (EventsScreen.error o = Some UniqueViolation
    ↔ ∃ p, p ∈ event_participants d ∧ p_event_id p = E ∧ p_volunteer_id p = V)
   ∧ (EventsScreen.error o = None
      ↔ (¬ ∃ p, p ∈ event_participants d ∧ p_event_id p = E ∧ p_volunteer_id p = V)
        ∧ Exists (λ e, e_id e = E) (events d) ∧ Exists (λ u, u_id u = V) (users d)))
  ∧ (EventsScreen.error o = None →
     Spec.row_count d' E = S (Spec.row_count d E)
     ∧ Spec.participant_count d' E = S (Spec.participant_count d E)
     ∧ ∀ new_id' now',
         EventsScreen.handleJoinEvent key (Some V) E new_id' now' d'
         = (d', {| EventsScreen.error := Some UniqueViolation;
                   EventsScreen.shown :=
                     Some (EventsScreen.toast_error "Failed to join event") |}))
  ∧ (EventsScreen.error o ≠ None →
     d' = d
     ∧ EventsScreen.shown o = Some (EventsScreen.toast_error "Failed to join event"))
  ∧ (refused key ≠ None → EventsScreen.error o = refused key).
Proof.
  intros Hjoin.
  destruct (refused key) as [err|] eqn:Hkey.
  { rewrite (handleJoinEvent_refused key V E new_id now d err Hkey) in Hjoin.
    injection Hjoin as <- <-. simpl.
    split; [done|]. split; [done|]. split; done. }
  destruct (handleJoinEvent_cases key V E new_id now d Hkey)
    as [[Hrows Heq]|[(Hrows & Hfk & Heq)|(Hrows & Hfk & Heq)]];
    rewrite Heq in Hjoin; injection Hjoin as <- <-; simpl.
  - assert (∃ p, p ∈ event_participants d ∧ p_event_id p = E ∧ p_volunteer_id p = V)
      as Hex.
    { destruct (decide (rows_for E V d = [])) as [Hn|_]; [done|].
      destruct (rows_for E V d) as [|p ps] eqn:Hf; [done|]. exists p.
      assert (p ∈ p :: ps) as Hin by left. rewrite <- Hf in Hin.
      apply list_elem_of_filter in Hin. tauto. }
    split; [intros _; split; [tauto|]; split; [done|]; tauto|].
    split; [done|]. split; done.
  - apply rows_for_nil_iff in Hrows.
    split; [intros _; split; [split; [done|tauto]|]; split; [done|]; tauto|].
    split; [done|]. split; done.
  - pose proof Hrows as Hnone. apply rows_for_nil_iff in Hnone.
    split; [intros _; split; [split; [done|tauto]|]; tauto|].
    split; [|split; done]. intros _.
    unfold Spec.row_count, Spec.participant_count. simpl.
    rewrite !filter_app, !length_app.
    rewrite !filter_cons_True by (simpl; split; done). simpl.
    split; [lia|]. split; [lia|]. intros new_id' now'.
    destruct (handleJoinEvent_cases key V E new_id' now'
                (set_event_participants
                   (event_participants d ++
                    [{| p_id := new_id; p_event_id := E; p_volunteer_id := V;
                        p_status := joined; p_hours := Some 0%Z;
                        p_created_at := now; p_updated_at := now |}]) d) Hkey)
      as [[_ Heq']|[(Hrows' & _)|(Hrows' & _)]]; [done| |];
      exfalso; unfold rows_for in Hrows'; simpl in Hrows';
      rewrite filter_app, filter_cons_True in Hrows' by done;
      by apply app_eq_nil in Hrows' as [_ ?].
Qed.

(** [join_unique_pair] at work: v1 joins e1, which nobody has joined, the
    store running the insert; and the same join refused by the store. *)
Lemma join_unique_pair_witness :
  (let r := EventsScreen.handleJoinEvent service_role_key (Some "v1") "e1" "p1" 2000
              Samples.d_open in
   EventsScreen.error r.2 = None
   ∧ Spec.row_count r.1 "e1" = S (Spec.row_count Samples.d_open "e1")
   ∧ EventsScreen.error
       (EventsScreen.handleJoinEvent service_role_key (Some "v1") "e1" "p2" 3000 r.1).2
     = Some UniqueViolation)
  ∧ (let r := EventsScreen.handleJoinEvent anon_key (Some "v1") "e1" "p1" 2000
                Samples.d_open in
     r.1 = Samples.d_open ∧ EventsScreen.error r.2 = Some PolicyRecursion).
Proof.
  split.
  - intros r.
    destruct (join_unique_pair service_role_key Samples.d_open r.1 "v1" "e1" "p1"
                2000 r.2) as (_ & H & _); [reflexivity|].
    destruct H as (Hrow & _ & Hagain); [reflexivity|].
    split; [reflexivity|]. split; [exact Hrow|].
    by rewrite Hagain.
  - intros r.
    destruct (join_unique_pair anon_key Samples.d_open r.1 "v1" "e1" "p1"
                2000 r.2) as (_ & _ & Hfail & Hpol); [reflexivity|].
    split.
    + apply Hfail. rewrite Hpol; discriminate.
    + apply Hpol. discriminate.
Defined.

(** A leave the store refuses. *)
Lemma handleLeaveEvent_refused key V E d err :
  refused key = Some err →
  EventsScreen.handleLeaveEvent key (Some V) E d
  = (d, {| EventsScreen.error := Some err;
           EventsScreen.shown :=
             Some (EventsScreen.toast_error "Failed to leave event") |}).
Proof.
  intros Hkey. unfold EventsScreen.handleLeaveEvent, delete_event_participant.
  by rewrite Hkey.
Qed.

(** A leave the store runs. *)
Lemma handleLeaveEvent_answered key V E d :
  refused key = None →
  EventsScreen.handleLeaveEvent key (Some V) E d
  = (set_event_participants
       (filter (λ p, ¬ (p_event_id p = E ∧ p_volunteer_id p = V))
               (event_participants d)) d,
     {| EventsScreen.error := None;
        EventsScreen.shown :=
          Some (EventsScreen.toast_success "Successfully left the event") |}).
Proof.
  intros Hkey. unfold EventsScreen.handleLeaveEvent, delete_event_participant.
  by rewrite Hkey.
Qed.

Lemma leave_removes_the_row key d V E r :
  refused key = None →
  unique_event_volunteer d →
  r ∈ event_participants d → p_event_id r = E → p_volunteer_id r = V →
  (EventsScreen.handleLeaveEvent key (Some V) E d).1 = Spec.without_row r d.
Proof.
  intros Hkey Huniq Hr HE HV.
  rewrite handleLeaveEvent_answered by done. unfold Spec.without_row. simpl. f_equal.
  apply filter_ext_elem_of. intros p Hp. split.
  - intros Hn ->. by apply Hn.
  - intros Hne [HpE HpV]. apply Hne.
    apply (NoDup_fmap_eq pair_key (event_participants d)); try done.
    unfold pair_key. congruence.
Qed.

(** The unique constraint is an invariant of joining and leaving. *)
Lemma join_preserves_unique key V E new_id now d :
  unique_event_volunteer d →
  unique_event_volunteer (EventsScreen.handleJoinEvent key (Some V) E new_id now d).1.
Proof.
  intros Huniq. destruct (refused key) as [err|] eqn:Hkey.
  { by rewrite (handleJoinEvent_refused key V E new_id now d err Hkey). }
  destruct (handleJoinEvent_cases key V E new_id now d Hkey)
    as [[_ ->]|[(_ & _ & ->)|(Hrows & _ & ->)]]; [done..|].
  unfold unique_event_volunteer in *. simpl. rewrite fmap_app.
  apply NoDup_app. split; [done|]. split; [|apply NoDup_singleton].
  intros k Hk ->%list_elem_of_singleton.
  apply list_elem_of_fmap in Hk as (p & Hkey' & Hp).
  apply rows_for_nil_iff in Hrows. apply Hrows. exists p.
  unfold pair_key in Hkey'. simpl in Hkey'. split; [done|]. split; congruence.
Qed.

Lemma leave_preserves_unique key V E d :
  unique_event_volunteer d →
  unique_event_volunteer (EventsScreen.handleLeaveEvent key (Some V) E d).1.
Proof.
  intros Huniq. destruct (refused key) as [err|] eqn:Hkey.
  { by rewrite (handleLeaveEvent_refused key V E d err Hkey). }
  rewrite handleLeaveEvent_answered by done.
  unfold unique_event_volunteer in *. simpl.
  eapply sublist_NoDup; [done|]. apply fmap_sublist, sublist_filter.
Qed.

(** C8 fails in the app, whose client runs under the policies of the
    schema: for a volunteer V holding a Participation row for event E, the
    leave is refused and so is the join that follows, so that the store ends
    as it began, the old row still in it; a single join on the initial store
    without that row is refused too and ends in the store without any row for
    it.  The two final participation states differ by that row. *)
Theorem rejoin_after_leave_refused (d : db) (V E new_id : string) (now : Z)
    (r : participant_row) :
  r ∈ event_participants d →
  let gone := EventsScreen.handleLeaveEvent anon_key (Some V) E d in
  let final := EventsScreen.handleJoinEvent anon_key (Some V) E new_id now gone.1 in
  let single_join :=
    EventsScreen.handleJoinEvent anon_key (Some V) E new_id now (Spec.without_row r d) in
  gone = (d, {| EventsScreen.error := Some PolicyRecursion;
                EventsScreen.shown :=
                  Some (EventsScreen.toast_error "Failed to leave event") |})
  ∧ final = (d, {| EventsScreen.error := Some PolicyRecursion;
                   EventsScreen.shown :=
                     Some (EventsScreen.toast_error "Failed to join event") |})
  ∧ single_join.1 = Spec.without_row r d
  ∧ r ∈ event_participants final.1
  ∧ r ∉ event_participants single_join.1.
Proof.
  intros Hr gone final single_join. subst gone final single_join. simpl.
  split; [done|]. split; [done|]. split; [done|]. split; [done|].
  intros Hin. apply list_elem_of_filter in Hin as [Hne _]. by apply Hne.
Qed.

(** [rejoin_after_leave_refused] at work: v1, who attended e1 for 4 hours,
    leaves and joins again; the attended row is still there. *)
Lemma rejoin_after_leave_refused_witness :
  let row := Samples.mk_participant "p1" "e1" "v1" attended 4 500 in
  let gone := EventsScreen.handleLeaveEvent anon_key (Some "v1") "e1"
                Samples.d_attended in
  row ∈ event_participants
          (EventsScreen.handleJoinEvent anon_key (Some "v1") "e1" "p3" 3000 gone.1).1
  ∧ row ∉ event_participants
            (EventsScreen.handleJoinEvent anon_key (Some "v1") "e1" "p3" 3000
               (Spec.without_row row Samples.d_attended)).1.
Proof.
  intros row gone.
  refine (proj2 (proj2 (proj2 (rejoin_after_leave_refused Samples.d_attended
            "v1" "e1" "p3" 3000 row _)))).
  left.
Defined.

(* --------------------------------------------------------------------- *)
(** ** Notifications *)
(* --------------------------------------------------------------------- *)

#[local] Instance created_desc_trans : Transitive created_desc.
Proof. unfold created_desc. intros x y z ??. lia. Qed.

#[local] Instance created_desc_total : Total created_desc.
Proof. unfold created_desc. intros x y. lia. Qed.

Lemma unreadCount_app l1 l2 :
  NotificationContext.unreadCount (l1 ++ l2)
  = NotificationContext.unreadCount l1 + NotificationContext.unreadCount l2.
Proof. unfold NotificationContext.unreadCount. by rewrite filter_app, length_app. Qed.

Lemma unreadCount_Permutation l1 l2 :
  l1 ≡ₚ l2 → NotificationContext.unreadCount l1 = NotificationContext.unreadCount l2.
Proof. unfold NotificationContext.unreadCount. by intros ->. Qed.

Lemma fetchNotifications_sorted uid d prev :
  NotificationContext.fetchNotifications (Some uid) d prev
  = take 50 (merge_sort created_desc
               (filter (λ n, n_user_id n = uid) (notifications d))).
Proof.
  unfold NotificationContext.fetchNotifications, visible_notifications.
  do 2 f_equal. rewrite list_filter_filter. apply list_filter_iff. tauto.
Qed.

Lemma foldr_on_insert pushed l :
  foldr NotificationContext.on_insert l pushed = (pushed ++ l)%list.
Proof. induction pushed as [|n pushed IH]; [done|]. simpl. by rewrite IH. Qed.

Lemma true_unread_of_mine d uid :
  length (filter (λ n, n_read_status n = false) (Spec.notifications_of d uid))
  = Spec.true_unread d uid.
Proof.
  unfold Spec.notifications_of, Spec.true_unread. rewrite list_filter_filter.
  f_equal. apply list_filter_iff. tauto.
Qed.

(** C10, as stated, fails for the in-app list: a notification pushed by the
    live subscription is put in front of the 50 that were loaded, and the
    list, and the unread count with it, are then computed from 51
    notifications. *)
Lemma notification_list_grows_past_50 :
  let d := Samples.d_flood 50 in
  let loaded := NotificationContext.fetchNotifications (Some "v1") d [] in
  let shown :=
    NotificationContext.on_insert (Samples.mk_notification "new" "v1" false 50)
                                  loaded in
  length loaded = 50 ∧ length shown = 51 ∧ NotificationContext.unreadCount shown = 51.
Proof. vm_compute. done. Qed.

(** C10 (amended): the notification list as loaded by [fetchNotifications]
    for a user holds their 50 most recent notifications at most, newest
    first: min(50, n) of the user's n notifications, every notification left
    out being no newer than every one kept.  The notifications pushed
    afterwards by the live subscription are put in front of it, latest first,
    without regard to that limit.  The unread count is the number of
    notifications of the list whose read flag is false: the true number of
    the user's unread notifications at the time of loading, minus the unread
    ones left out, plus the unread ones pushed.  Of sixty notifications, 35
    of them unread, the list holds 50 and the count is 28. *)
Theorem notifications_capped_at_50 :
  (∀ (uid : string) (d : db) (prev pushed : list notification_row),
     let mine := Spec.notifications_of d uid in
     let loaded := NotificationContext.fetchNotifications (Some uid) d prev in
     let shown := foldr NotificationContext.on_insert loaded pushed in
     shown = (pushed ++ loaded)%list
     ∧ length loaded = min 50 (length mine)
     ∧ Sorted created_desc loaded
     ∧ ∃ older,
         loaded ++ older ≡ₚ mine
         ∧ Forall (λ x, Forall (λ y, (n_created_at y ≤ n_created_at x)%Z) older) loaded
         ∧ (NotificationContext.unreadCount shown
            + length (filter (λ n, n_read_status n = false) older)
            = length (filter (λ n, n_read_status n = false) pushed)
              + Spec.true_unread d uid)%nat)
  ∧ (let d := Samples.d_mixed in
     let loaded := NotificationContext.fetchNotifications (Some "v1") d [] in
     length (Spec.notifications_of d "v1") = 60
     ∧ length loaded = 50
     ∧ NotificationContext.unreadCount loaded = 28
     ∧ Spec.true_unread d "v1" = 35).
Proof.
  split; [|by vm_compute].
  intros uid d prev pushed mine loaded shown. subst shown loaded.
  rewrite foldr_on_insert. split; [done|].
  rewrite fetchNotifications_sorted.
  change (filter (λ n, n_user_id n = uid) (notifications d)) with mine.
  pose proof (StronglySorted_merge_sort created_desc mine) as Hsorted.
  pose proof (merge_sort_Permutation created_desc mine) as Hperm.
  set (sorted := merge_sort created_desc mine) in *.
  split; [by rewrite length_take, (Permutation_length Hperm)|].
  rewrite <- (take_drop 50 sorted) in Hsorted, Hperm.
  split.
  { apply StronglySorted_Sorted. by eapply StronglySorted_app_1_l. }
  exists (drop 50 sorted). split; [done|]. split.
  - apply Forall_forall. intros x Hx. apply Forall_forall. intros y Hy.
    by apply (StronglySorted_app_1_elem_of _ _ _ x y Hsorted).
  - assert (NotificationContext.unreadCount mine = Spec.true_unread d uid) as <-
      by apply true_unread_of_mine.
    rewrite <- (unreadCount_Permutation _ _ Hperm), !unreadCount_app.
    unfold NotificationContext.unreadCount. lia.
Qed.

Lemma mark_read_idemp n : mark_read (mark_read n) = mark_read n.
Proof. done. Qed.

Lemma store_update_idemp actor nid d :
  (update_notification_read actor nid (update_notification_read actor nid d).1).1
  = (update_notification_read actor nid d).1.
Proof.
  unfold update_notification_read, set_notifications. simpl. f_equal.
  rewrite <- list_fmap_compose. apply list_fmap_ext. intros _ n _. simpl.
  destruct (decide (n_id n = nid ∧ n_user_id n = actor)) as [Hn|Hn]; simpl.
  - by rewrite decide_True.
  - by rewrite decide_False.
Qed.

Lemma local_update_idemp nid (l : list notification_row) :
  (λ n, if decide (n_id n = nid) then mark_read n else n)
    <$> ((λ n, if decide (n_id n = nid) then mark_read n else n) <$> l)
  = (λ n, if decide (n_id n = nid) then mark_read n else n) <$> l.
Proof.
  rewrite <- list_fmap_compose. apply list_fmap_ext. intros _ n _. simpl.
  destruct (decide (n_id n = nid)) as [Hn|Hn]; simpl.
  - by rewrite decide_True.
  - by rewrite decide_False.
Qed.

(** C7, as stated, fails: a [markAsRead] by an account that is not the
    recipient reports no error at all; the update policy skips the row and
    the store stays as it is. *)
Lemma markAsRead_by_non_recipient_is_silent :
  n_user_id <$> notifications Samples.d_inbox = ["v1"]
  ∧ NotificationContext.markAsRead (Some "v2") "n1" Samples.d_inbox []
    = (Samples.d_inbox, [], None).
Proof. vm_compute. done. Qed.

(** C7 (amended): [markAsRead] never reports an error.  When no notification
    with the given id is addressed to the actor, the store is left exactly
    as it is (the update policy skips rows of other recipients); when the
    actor is the recipient, the read flag of the notification becomes true
    and nothing else in the row changes; notifications with another id are
    untouched; and repeating the call changes neither the store nor the
    list held by the client. *)
Theorem markAsRead_recipient_only (actor nid : string) (d : db)
    (prev : list notification_row) :
  let r := NotificationContext.markAsRead (Some actor) nid d prev in
  r.2 = None
  ∧ ((∀ n, n ∈ notifications d → n_id n = nid → n_user_id n ≠ actor) → r.1.1 = d)
  ∧ (∀ i n, notifications d !! i = Some n → n_id n = nid → n_user_id n = actor →
       notifications r.1.1 !! i = Some (mark_read n)
       ∧ n_read_status (mark_read n) = true)
  ∧ (∀ i n, notifications d !! i = Some n → n_id n ≠ nid →
       notifications r.1.1 !! i = Some n)
  ∧ NotificationContext.markAsRead (Some actor) nid r.1.1 r.1.2 = r.
Proof.
  intros r. subst r. unfold NotificationContext.markAsRead.
  destruct (update_notification_read actor nid d) as [d' err] eqn:Hupd.
  assert (err = None) as -> by (unfold update_notification_read in Hupd; congruence).
  assert (d' = (update_notification_read actor nid d).1) as Hd' by by rewrite Hupd.
  simpl. split; [done|]. split; [|split; [|split]].
  - intros Hother. rewrite Hd'. unfold update_notification_read, set_notifications.
    simpl. destruct d as [us es ps ns]. simpl in *. f_equal.
    rewrite <- (list_fmap_id ns) at 2. apply list_fmap_ext. intros i n Hn. simpl.
    apply list_elem_of_lookup_2 in Hn.
    destruct (decide (n_id n = nid ∧ n_user_id n = actor)) as [[Hid Hu]|]; [|done].
    by destruct (Hother n Hn Hid).
  - intros i n Hi Hid Hu. split; [|done]. rewrite Hd'. simpl.
    rewrite list_lookup_fmap, Hi. simpl. by rewrite decide_True.
  - intros i n Hi Hid. rewrite Hd'. simpl.
    rewrite list_lookup_fmap, Hi. simpl. rewrite decide_False; [done|tauto].
  - destruct (update_notification_read actor nid d') as [d'' err'] eqn:Hupd'.
    assert (err' = None) as ->
      by (unfold update_notification_read in Hupd'; congruence).
    assert (d'' = d') as ->.
    { transitivity ((update_notification_read actor nid d').1); [by rewrite Hupd'|].
      rewrite Hd'. apply store_update_idemp. }
    rewrite local_update_idemp. do 2 f_equal.
    change ((update_notification_read actor nid d').1 = d'). by rewrite Hupd'.
Qed.

(** [markAsRead_recipient_only] at work: v1 marks their notification as
    read; the same call by v2 leaves the store as it is. *)
Lemma markAsRead_recipient_only_witness :
  let r := NotificationContext.markAsRead (Some "v1") "n1" Samples.d_inbox
             (notifications Samples.d_inbox) in
  notifications r.1.1 !! 0 = Some (Samples.mk_notification "n1" "v1" true 100)
  ∧ (NotificationContext.markAsRead (Some "v2") "n1" Samples.d_inbox []).1.1
    = Samples.d_inbox.
Proof.
  intros r. split.
  - destruct (markAsRead_recipient_only "v1" "n1" Samples.d_inbox
                (notifications Samples.d_inbox)) as (_ & _ & H & _).
    apply (H 0 (Samples.mk_notification "n1" "v1" false 100));
      reflexivity.
  - destruct (markAsRead_recipient_only "v2" "n1" Samples.d_inbox [])
      as (_ & H & _).
    apply H. intros n Hn _.
    apply list_elem_of_singleton in Hn as ->. simpl.
    intros Heq. discriminate Heq.
Defined.

(* --------------------------------------------------------------------- *)
(** ** Dashboard statistics *)
(* --------------------------------------------------------------------- *)

Lemma size_list_to_set_NoDup (l vs : list string) :
  NoDup vs → (∀ v, v ∈ vs ↔ v ∈ l) →
  size (list_to_set l : gset string) = length vs.
Proof.
  intros Hnd Hiff. unfold size, set_size. simpl.
  apply Permutation_length, NoDup_Permutation; [apply NoDup_elements|done|].
  intros v. rewrite elem_of_elements, elem_of_list_to_set. by rewrite Hiff.
Qed.

(** What [fetchStats] shows when the store refuses the three queries that
    pass through the policies on [users]. *)
Lemma fetchStats_refused key now d :
  refused key ≠ None →
  AdminScreen.fetchStats key now d
  = {| AdminScreen.totalVolunteers := 0;
       AdminScreen.totalEvents := length (events d);
       AdminScreen.totalParticipations := 0;
       AdminScreen.activeVolunteers := 0 |}.
Proof.
  intros Hkey.
  unfold AdminScreen.fetchStats, AdminScreen.data_or_nothing, AdminScreen.count_or_zero.
  destruct (refused key); [|done]. simpl. f_equal.
Qed.

(** The number the specification defines. *)
Lemma spec_active_volunteers now d (vs : list string) :
  NoDup vs →
  (∀ v, v ∈ vs ↔ ∃ p, p ∈ event_participants d ∧ p_volunteer_id p = v
                      ∧ Spec.within_trailing_30_days now (p_created_at p)) →
  Spec.active_volunteers now d = length vs.
Proof.
  intros Hnd Hiff. unfold Spec.active_volunteers.
  apply size_list_to_set_NoDup; [done|].
  intros v. rewrite Hiff, list_elem_of_fmap. unfold Spec.within_trailing_30_days.
  split.
  - intros (p & Hp & <- & Hin). exists p. split; [done|].
    by apply list_elem_of_filter.
  - intros (p & -> & Hp). apply list_elem_of_filter in Hp as [Hin Hp]. by exists p.
Qed.

(** C9 fails in the app, whose client runs under the policies of the
    schema: the query for the Participation rows of the last 30 days is
    refused, its data is missing, and [fetchStats] reports 0 active
    volunteers whatever the store holds.  On a store where one volunteer, v1,
    has Participation rows created within the trailing 30 days from now, it
    reports 0 where the claim has 1. *)
Theorem active_volunteers_not_counted :
  (∀ now d, AdminScreen.activeVolunteers (AdminScreen.fetchStats anon_key now d) = 0)
  ∧ Spec.active_volunteers 3000000000 Samples.d_recent = 1
  ∧ AdminScreen.activeVolunteers
      (AdminScreen.fetchStats anon_key 3000000000 Samples.d_recent) = 0.
Proof.
  assert (∀ now d,
    AdminScreen.activeVolunteers (AdminScreen.fetchStats anon_key now d) = 0) as H.
  { intros now d. by rewrite fetchStats_refused. }
  split; [exact H|]. split; [|apply H].
  apply (spec_active_volunteers 3000000000 Samples.d_recent ["v1"]).
  - apply NoDup_singleton.
  - intros v. unfold Spec.within_trailing_30_days, Spec.thirty_days. split.
    + intros ->%list_elem_of_singleton.
      exists (Samples.mk_participant "p1" "e1" "v1" joined 0 2999999000).
      split; [left|]. simpl. split; [done|lia].
    + intros (p & Hp & <- & Ht). each_row Hp; [left | left | simpl in Ht; lia].
Qed.

(* --------------------------------------------------------------------- *)
(** ** The volunteer report *)
(* --------------------------------------------------------------------- *)

Lemma foldl_hours (ps : list participant_row) (acc : Z) :
  foldl (λ sum p, (sum + AdminScreen.hours_or_zero p)%Z) acc ps
  = (acc + foldr (λ p a, (default 0 (p_hours p) + a)%Z) 0 ps)%Z.
Proof.
  revert acc. induction ps as [|p ps IH]; intros acc; simpl; [lia|].
  rewrite IH. unfold AdminScreen.hours_or_zero. destruct (p_hours p); simpl; lia.
Qed.

Lemma Math_max_greatest (t : Z) (ts : list Z) :
  AdminScreen.Math_max t ts ∈ t :: ts
  ∧ ∀ x, x ∈ t :: ts → (x ≤ AdminScreen.Math_max t ts)%Z.
Proof.
  unfold AdminScreen.Math_max. revert t.
  induction ts as [|u ts IH]; intros t; simpl.
  - split; [left|]. intros x ->%list_elem_of_singleton. lia.
  - destruct (IH (Z.max t u)) as [Hin Hle]. split.
    + apply elem_of_cons in Hin as [Hin|Hin]; [|by do 2 right].
      rewrite Hin. destruct (Z.max_spec t u) as [[_ ->]|[_ ->]];
        [right; left|left].
    + intros x Hx. apply elem_of_cons in Hx as [->|Hx].
      * etrans; [|apply Hle; left]. lia.
      * apply elem_of_cons in Hx as [->|Hx].
        -- etrans; [|apply Hle; left]. lia.
        -- apply Hle. by right.
Qed.

Lemma fetchVolunteerReports_answered key d prev :
  refused key = None →
  AdminScreen.fetchVolunteerReports key d prev
  = AdminScreen.volunteer_report d
      <$> merge_sort name_asc (filter (λ u, u_role u = volunteer) (users d)).
Proof. unfold AdminScreen.fetchVolunteerReports. by intros ->. Qed.

Lemma fetchVolunteerReports_refused key d prev :
  refused key ≠ None → AdminScreen.fetchVolunteerReports key d prev = prev.
Proof. unfold AdminScreen.fetchVolunteerReports. by destruct (refused key). Qed.

(** The last activity of a record: the timestamp of the most recent
    Participation when it lies after the epoch, nothing otherwise. *)
Lemma last_activity_most_recent d u :
  match AdminScreen.last_activity (AdminScreen.volunteer_report d u) with
  | Some t => Spec.most_recent (Spec.participations d (u_id u)) t ∧ (0 < t)%Z
  | None => Spec.participations d (u_id u) = []
            ∨ ∃ t, Spec.most_recent (Spec.participations d (u_id u)) t ∧ (t ≤ 0)%Z
  end.
Proof.
  simpl. change (embed_user_participants d u) with (Spec.participations d (u_id u)).
  destruct (Spec.participations d (u_id u)) as [|p ps]; [by left|].
  rewrite fmap_cons.
  destruct (Math_max_greatest (p_created_at p) (p_created_at <$> ps)) as [Hin Hmax].
  assert (Spec.most_recent (p :: ps)
            (AdminScreen.Math_max (p_created_at p) (p_created_at <$> ps))) as Hrecent.
  { split; [done|]. intros q Hq. apply Hmax. rewrite <- fmap_cons.
    by apply list_elem_of_fmap_2. }
  destruct (0 <? AdminScreen.Math_max (p_created_at p) (p_created_at <$> ps))%Z
    eqn:Hpos.
  - apply Z.ltb_lt in Hpos. done.
  - apply Z.ltb_ge in Hpos. right. eauto.
Qed.

(** C4, as stated, fails.  In the app, whose client runs under the policies
    of the schema, the store refuses the query and the report stays empty:
    nothing is emitted for the volunteer accounts v1 and v2.  And where the
    store answers, the total of a volunteer whose only participation is
    cancelled is 1, while they have no non-cancelled participation. *)
Lemma total_events_counts_cancelled :
  (u_id <$> filter (λ u, u_role u = volunteer) (users Samples.d_recent) = ["v1"; "v2"]
   ∧ AdminScreen.fetchVolunteerReports anon_key Samples.d_recent [] = [])
  ∧ ((λ r, (AdminScreen.vr_id r, AdminScreen.total_events r))
       <$> AdminScreen.fetchVolunteerReports service_role_key Samples.d_cancelled []
     = [("v1", 1); ("v2", 0)]
     ∧ Spec.non_cancelled_participations Samples.d_cancelled "v1" = 0).
Proof. vm_compute. done. Qed.

(** C4 (amended): whenever the store answers the query,
    [fetchVolunteerReports] emits one record per volunteer account, and the
    record of a volunteer holds their name (their email when the name is
    missing or empty), their email, the number of their Participation rows of
    any status (cancelled included), the sum of hours across all their
    Participation rows, and the timestamp of their most recent Participation,
    or nothing (shown as "Never") when they have none or when that timestamp
    is not after the epoch.  When the store refuses the query, the report is
    left as it was. *)
Theorem volunteer_report_fields (key : api_key) (d : db)
    (prev : list AdminScreen.VolunteerReport) :
  (refused key = None →
   AdminScreen.vr_id <$> AdminScreen.fetchVolunteerReports key d prev
     ≡ₚ u_id <$> filter (λ u, u_role u = volunteer) (users d)
   ∧ ∀ u, u ∈ users d → u_role u = volunteer →
       ∃ r, r ∈ AdminScreen.fetchVolunteerReports key d prev
         ∧ AdminScreen.vr_id r = u_id u
         ∧ AdminScreen.email r = u_email u
         ∧ (∀ s, u_name u = Some s → s ≠ "" → AdminScreen.name r = s)
         ∧ (u_name u = None ∨ u_name u = Some "" → AdminScreen.name r = u_email u)
         ∧ AdminScreen.total_events r = length (Spec.participations d (u_id u))
         ∧ AdminScreen.total_hours r = Spec.total_hours d (u_id u)
         ∧ match AdminScreen.last_activity r with
           | Some t =>
             Spec.most_recent (Spec.participations d (u_id u)) t ∧ (0 < t)%Z
           | None =>
             Spec.participations d (u_id u) = []
             ∨ ∃ t, Spec.most_recent (Spec.participations d (u_id u)) t ∧ (t ≤ 0)%Z
           end)
  ∧ (refused key ≠ None → AdminScreen.fetchVolunteerReports key d prev = prev).
Proof.
  split; [|apply fetchVolunteerReports_refused].
  intros Hkey. rewrite fetchVolunteerReports_answered by done.
  set (vols := filter (λ u, u_role u = volunteer) (users d)).
  pose proof (merge_sort_Permutation name_asc vols) as Hperm.
  split.
  { rewrite <- list_fmap_compose.
    transitivity (u_id <$> merge_sort name_asc vols); [done|by rewrite Hperm]. }
  intros u Hu Hrole. exists (AdminScreen.volunteer_report d u).
  split.
  { apply list_elem_of_fmap_2. rewrite Hperm. by apply list_elem_of_filter. }
  split; [done|]. split; [done|]. split; [|split; [|split; [|split]]].
  - intros s Hs Hne. simpl. rewrite Hs. by destruct s.
  - intros [Hs|Hs]; simpl; by rewrite Hs.
  - done.
  - simpl. by rewrite foldl_hours.
  - apply last_activity_most_recent.
Qed.

(** [volunteer_report_fields] at work: the record of v1, the store
    answering; and the report left empty, the store refusing. *)
Lemma volunteer_report_fields_witness :
  (∃ r, r ∈ AdminScreen.fetchVolunteerReports service_role_key Samples.d_recent []
     ∧ AdminScreen.vr_id r = "v1"
     ∧ AdminScreen.total_events r = 2
     ∧ AdminScreen.total_hours r = 4%Z
     ∧ AdminScreen.last_activity r = Some 2999999500%Z)
  ∧ AdminScreen.fetchVolunteerReports anon_key Samples.d_recent [] = [].
Proof.
  split.
  - destruct (volunteer_report_fields service_role_key Samples.d_recent [])
      as [H _].
    destruct H as [_ H]; [reflexivity|].
    destruct (H (Samples.mk_user "v1" volunteer))
      as (r & Hr & Hid & _ & _ & _ & Hn & Hh & Hlast); [right; left|reflexivity|].
    exists r. split; [done|]. split; [done|]. split; [done|]. split; [done|].
    destruct (AdminScreen.last_activity r) as [t|].
    + destruct Hlast as [[Hin Hmax] _]. f_equal.
      apply Z.le_antisymm.
      * each_row Hin; lia.
      * apply (Hmax (Samples.mk_participant "p2" "e2" "v1" attended 4 2999999500)).
        right; left.
    + exfalso. destruct Hlast as [Hnone|(t & [_ Hmax] & Hle)]; [discriminate Hnone|].
      specialize (Hmax (Samples.mk_participant "p2" "e2" "v1" attended 4 2999999500)).
      simpl in Hmax. assert (2999999500 ≤ t)%Z by (apply Hmax; right; left). lia.
  - refine (proj2 (volunteer_report_fields anon_key Samples.d_recent []) _).
    discriminate.
Defined.

(* --------------------------------------------------------------------- *)
(** ** The event report *)
(* --------------------------------------------------------------------- *)

#[local] Instance date_desc_trans : Transitive date_desc.
Proof. unfold date_desc. intros x y z ??. lia. Qed.

#[local] Instance date_desc_total : Total date_desc.
Proof. unfold date_desc. intros x y. lia. Qed.

(** C6, as stated, fails.  In the app, whose client runs under the policies
    of the schema, the store refuses the query and the report stays empty:
    every event is omitted.  And where the store answers, of eleven events
    the report holds ten; the event with the earliest date has no record. *)
Lemma event_report_omits_eleventh :
  e_id <$> events Samples.d_eleven
    = ["A"; "B"; "C"; "D"; "E"; "F"; "G"; "H"; "I"; "J"; "K"]
  ∧ AdminScreen.fetchEventReports anon_key Samples.d_eleven [] = []
  ∧ AdminScreen.er_id <$> AdminScreen.fetchEventReports service_role_key
                            Samples.d_eleven []
    = ["K"; "J"; "I"; "H"; "G"; "F"; "E"; "D"; "C"; "B"].
Proof. vm_compute. done. Qed.

(** C6 (amended): whenever the store answers the query, [fetchEventReports]
    emits one record (title, schedule, location, participant_count,
    attended_count) for each of the 10 events with the latest schedule,
    latest first, and for each Event when the catalog holds at most 10; the
    events left out, as many as the catalog holds beyond 10, are scheduled no
    later than any event reported.  When the store refuses the query, the
    report is left as it was. *)
Theorem event_report_latest_ten (key : api_key) (d : db)
    (prev : list AdminScreen.EventReport) :
  let reports := AdminScreen.fetchEventReports key d prev in
  (refused key = None →
   length reports = min 10 (length (events d))
   ∧ ∃ shown older,
       shown ++ older ≡ₚ events d
       ∧ length older = length (events d) - 10
       ∧ Sorted date_desc shown
       ∧ Forall (λ x, Forall (λ y, (e_date y ≤ e_date x)%Z) older) shown
       ∧ Forall2 (λ e r, AdminScreen.er_id r = e_id e
                         ∧ AdminScreen.title r = e_title e
                         ∧ AdminScreen.date r = e_date e
                         ∧ AdminScreen.location r = e_location e
                         ∧ AdminScreen.participant_count r = Spec.row_count d (e_id e)
                         ∧ AdminScreen.attended_count r
                           = Spec.attended_count d (e_id e))
                 shown reports)
  ∧ (refused key ≠ None → reports = prev).
Proof.
  intros reports. subst reports. split; [|apply fetchEventReports_refused].
  intros Hkey. rewrite fetchEventReports_answered by done.
  pose proof (StronglySorted_merge_sort date_desc (events d)) as Hsorted.
  pose proof (merge_sort_Permutation date_desc (events d)) as Hperm.
  set (sorted := merge_sort date_desc (events d)) in *.
  assert (length sorted = length (events d)) as Hlen by by rewrite Hperm.
  split; [by rewrite length_fmap, length_take, Hlen|].
  exists (take 10 sorted), (drop 10 sorted).
  rewrite <- (take_drop 10 sorted) in Hsorted.
  split; [by rewrite take_drop|]. split; [by rewrite length_drop, Hlen|].
  split; [apply StronglySorted_Sorted; by eapply StronglySorted_app_1_l|].
  split.
  - apply Forall_forall. intros x Hx. apply Forall_forall. intros y Hy.
    by apply (StronglySorted_app_1_elem_of _ _ _ x y Hsorted).
  - apply Forall2_fmap_r, Forall_Forall2_diag, Forall_forall. intros e _.
    simpl. by rewrite embed_all_length, embed_all_attended.
Qed.

(** [event_report_latest_ten] at work: ten records out of eleven events,
    the store answering; and the report left empty, the store refusing. *)
Lemma event_report_latest_ten_witness :
  length (AdminScreen.fetchEventReports service_role_key Samples.d_eleven [])
  = min 10 (length (events Samples.d_eleven))
  ∧ AdminScreen.fetchEventReports anon_key Samples.d_eleven [] = [].
Proof.
  split.
  - refine (proj1 (proj1 (event_report_latest_ten service_role_key
                            Samples.d_eleven []) _)).
    reflexivity.
  - refine (proj2 (event_report_latest_ten anon_key Samples.d_eleven []) _).
    discriminate.
Defined.

(* --------------------------------------------------------------------- *)
(** ** The joined-events view *)
(* --------------------------------------------------------------------- *)

#[local] Instance date_asc_trans : Transitive date_asc.
Proof. unfold date_asc. intros x y z ??. lia. Qed.

#[local] Instance date_asc_total : Total date_asc.
Proof. unfold date_asc. intros x y. lia. Qed.



(** Had the embedding been written with [!inner], the view of the same
    store would have been empty: the attended row is not of status joined. *)
Example joined_view_inner_excludes_attended :
  EventsScreen.fetchEvents_with EmbedInner "v1" EventsScreen.filter_joined 0
    Samples.d_attended = [].
Proof. vm_compute. done. Qed.



(* --------------------------------------------------------------------- *)
(** ** The attendance rate *)
(* --------------------------------------------------------------------- *)

(** IEEE rounding at work: 23 of 40 is 57.49999999999999 per cent in
    binary64 and is shown as 57; 1 of 8 is 12.5 and is shown as 13. *)
Example attendance_percent_23_of_40 :
  JSNumber.to_Z (AdminScreen.attendance_percent
    {| AdminScreen.er_id := "e"; AdminScreen.title := ""; AdminScreen.date := 0;
       AdminScreen.location := ""; AdminScreen.participant_count := 40;
       AdminScreen.attended_count := 23 |}) = Some 57%Z.
Proof. by vm_compute. Qed.

Example attendance_percent_1_of_8 :
  JSNumber.to_Z (AdminScreen.attendance_percent
    {| AdminScreen.er_id := "e"; AdminScreen.title := ""; AdminScreen.date := 0;
       AdminScreen.location := ""; AdminScreen.participant_count := 8;
       AdminScreen.attended_count := 1 |}) = Some 13%Z.
Proof. by vm_compute. Qed.

(** For every count of participants up to 60 and every count of attended
    among them, the percentage shown is a whole number between 0 and 100
    within half a point of the exact 100 a / p. *)
Example shown_percent_within_half_point :
  forallb (λ p,
    forallb (λ a,
      match Samples.shown_percent a p with
      | Some z => (0 <=? z)%Z && (z <=? 100)%Z
                  && (2 * Z.abs (z * Z.of_nat p - 100 * Z.of_nat a) <=? Z.of_nat p)%Z
      | None => false
      end) (seq 0 (S p))) (seq 0 61) = true.
Proof. by vm_compute. Qed.

(** C3: the attendance rate of a reported event is the quotient
    attended_count / participant_count when participant_count > 0 (shown as
    a percentage rounded by [Math.round], and compared as it is with 0.7 and
    0.5 for the badge), and it is 0 when participant_count = 0; no division
    is evaluated with the divisor 0, in the percentage or in the badge. *)
Theorem attendance_rate_guarded (ev : AdminScreen.EventReport) :
  let a := AdminScreen.attended_count ev in
  let p := AdminScreen.participant_count ev in
  (p = 0 → AdminScreen.attendance_percent ev = S754_zero false
           ∧ AdminScreen.attendance_badge ev = AdminScreen.gray)
  ∧ (0 < p →
     ∃ rate, AdminScreen.div_checked a p = AdminScreen.value rate
       ∧ rate = JSNumber.div (JSNumber.of_nat a) (JSNumber.of_nat p)
       ∧ AdminScreen.attendance_percent ev
         = JSNumber.Math_round (JSNumber.mul rate (JSNumber.of_nat 100))
       ∧ AdminScreen.attendance_badge ev
         = if JSNumber.geb rate (JSNumber.tenths 7) then AdminScreen.green
           else if JSNumber.geb rate (JSNumber.tenths 5) then AdminScreen.yellow
           else AdminScreen.red)
  ∧ AdminScreen.attendance_percent_checked ev
    = AdminScreen.value (AdminScreen.attendance_percent ev)
  ∧ AdminScreen.attendance_badge_checked ev
    = AdminScreen.value (AdminScreen.attendance_badge ev).
Proof.
  intros a p. subst a p.
  unfold AdminScreen.attendance_percent, AdminScreen.attendance_badge,
    AdminScreen.attendance_percent_checked, AdminScreen.attendance_badge_checked.
  destruct (AdminScreen.participant_count ev) as [|n] eqn:Hp.
  - split; [done|]. split; [lia|]. done.
  - split; [done|]. split.
    + intros _. eexists. split; [done|]. done.
    + simpl. split; [done|].
      destruct (JSNumber.geb _ (JSNumber.tenths 7)); [done|].
      by destruct (JSNumber.geb _ (JSNumber.tenths 5)).
Qed.

(** [attendance_rate_guarded] at work: no participants give 0; 3 of 4 give
    75 per cent. *)
Lemma attendance_rate_guarded_witness :
  AdminScreen.attendance_percent
    {| AdminScreen.er_id := "e1"; AdminScreen.title := "Drive";
       AdminScreen.date := 1000; AdminScreen.location := "Khartoum";
       AdminScreen.participant_count := 0; AdminScreen.attended_count := 0 |}
  = S754_zero false
  ∧ ∃ rate,
      AdminScreen.div_checked 3 4 = AdminScreen.value rate
      ∧ JSNumber.to_Z (JSNumber.Math_round (JSNumber.mul rate (JSNumber.of_nat 100)))
        = Some 75%Z.
Proof.
  split.
  - apply (attendance_rate_guarded
             {| AdminScreen.er_id := "e1"; AdminScreen.title := "Drive";
                AdminScreen.date := 1000; AdminScreen.location := "Khartoum";
                AdminScreen.participant_count := 0;
                AdminScreen.attended_count := 0 |}).
    reflexivity.
  - destruct (attendance_rate_guarded
             {| AdminScreen.er_id := "e2"; AdminScreen.title := "Clinic";
                AdminScreen.date := 2000; AdminScreen.location := "Omdurman";
                AdminScreen.participant_count := 4;
                AdminScreen.attended_count := 3 |}) as (_ & H & _).
    destruct H as (rate & Hdiv & Hrate & _); [simpl; lia|].
    exists rate. split; [exact Hdiv|]. rewrite Hrate. by vm_compute.
Defined.

(* ===================================================================== *)
(** * Further properties of the code *)
(* ===================================================================== *)

(* ===================================================================== *)
(** * Further properties of the code *)
(* ===================================================================== *)

(* --------------------------------------------------------------------- *)
(** ** Joining and leaving, composed *)
(* --------------------------------------------------------------------- *)

Lemma filter_all_hold {A} (P : A → Prop) `{∀ x, Decision (P x)} (l : list A) :
  (∀ x, x ∈ l → P x) → filter P l = l.
Proof.
  intros HP. rewrite <- (filter_always l) at 2.
  apply filter_ext_elem_of. intros x Hx. split; [done|]. intros _. by apply HP.
Qed.

Lemma db_eta d :
  {| users := users d; events := events d;
     event_participants := event_participants d;
     notifications := notifications d |} = d.
Proof. by destruct d. Qed.

Lemma no_row_for_pair E V d p :
  rows_for E V d = [] → p ∈ event_participants d →
  ¬ (p_event_id p = E ∧ p_volunteer_id p = V).
Proof.
  intros Hnone Hp Hpair. apply rows_for_nil_iff in Hnone. apply Hnone.
  exists p. tauto.
Qed.

(** Joining an event for which one holds no row and leaving it at once
    gives back the store as it was, whether the store runs the two
    statements (the row added by a successful join is the only one the leave
    removes) or refuses them. *)
Theorem join_then_leave_restores (key : api_key) (d : db) (V E new_id : string)
    (now : Z) :
  rows_for E V d = [] →
  (EventsScreen.handleLeaveEvent key (Some V) E
     (EventsScreen.handleJoinEvent key (Some V) E new_id now d).1).1 = d.
Proof.
  intros Hnone. destruct (refused key) as [err|] eqn:Hkey.
  { rewrite (handleJoinEvent_refused key V E new_id now d err Hkey).
    by rewrite (handleLeaveEvent_refused key V E _ err Hkey). }
  assert (filter (λ p, ¬ (p_event_id p = E ∧ p_volunteer_id p = V))
                 (event_participants d) = event_participants d) as Hkeep.
  { apply filter_all_hold. intros p Hp. by apply (no_row_for_pair E V d). }
  destruct (handleJoinEvent_cases key V E new_id now d Hkey)
    as [[Hrows _]|[(_ & _ & ->)|(_ & _ & ->)]]; [done| |];
    rewrite handleLeaveEvent_answered by done; simpl;
    unfold set_event_participants; simpl.
  - rewrite Hkeep. apply db_eta.
  - rewrite filter_app, filter_cons_False, filter_nil, app_nil_r by (simpl; tauto).
    rewrite Hkeep. apply db_eta.
Qed.

(** [join_then_leave_restores] at work: v1 joins e1 and leaves, the store
    running the statements, and the store refusing them. *)
Lemma join_then_leave_restores_witness :
  (EventsScreen.handleLeaveEvent service_role_key (Some "v1") "e1"
     (EventsScreen.handleJoinEvent service_role_key (Some "v1") "e1" "p1" 2000
        Samples.d_open).1).1
  = Samples.d_open
  ∧ (EventsScreen.handleLeaveEvent anon_key (Some "v1") "e1"
       (EventsScreen.handleJoinEvent anon_key (Some "v1") "e1" "p1" 2000
          Samples.d_open).1).1
    = Samples.d_open.
Proof.
  split.
  - apply (join_then_leave_restores service_role_key Samples.d_open "v1" "e1" "p1" 2000).
    reflexivity.
  - apply (join_then_leave_restores anon_key Samples.d_open "v1" "e1" "p1" 2000).
    reflexivity.
Defined.

(** A join touches nothing but the Participation rows of its own pair: the
    other tables and every existing row stay as they are (the new row, if
    any, comes last), the row counts of the other events do not move, and a
    join that reports an error, the refusal of the store among them, leaves
    the whole store unchanged. *)
Theorem join_touches_only_its_pair (key : api_key) (d : db) (V E new_id : string)
    (now : Z) :
  let r := EventsScreen.handleJoinEvent key (Some V) E new_id now d in
  users r.1 = users d ∧ events r.1 = events d
  ∧ notifications r.1 = notifications d
  ∧ event_participants d `prefix_of` event_participants r.1
  ∧ filter (λ p, ¬ (p_event_id p = E ∧ p_volunteer_id p = V))
           (event_participants r.1)
    = filter (λ p, ¬ (p_event_id p = E ∧ p_volunteer_id p = V))
             (event_participants d)
  ∧ (∀ E', E' ≠ E → Spec.row_count r.1 E' = Spec.row_count d E')
  ∧ (EventsScreen.error r.2 ≠ None → r.1 = d)
  ∧ (refused key ≠ None → EventsScreen.error r.2 = refused key).
Proof.
  intros r. subst r. destruct (refused key) as [err|] eqn:Hkey.
  { rewrite (handleJoinEvent_refused key V E new_id now d err Hkey). simpl.
    by repeat split. }
  destruct (handleJoinEvent_cases key V E new_id now d Hkey)
    as [[_ ->]|[(_ & _ & ->)|(Hrows & _ & ->)]]; simpl.
  1, 2: by repeat split.
  split; [done|]. split; [done|]. split; [done|].
  split; [by apply prefix_app_r|].
  split; [by rewrite filter_app, filter_cons_False, filter_nil, app_nil_r
             by (simpl; tauto)|].
  split; [|done].
  intros E' HE'. unfold Spec.row_count. simpl.
  by rewrite filter_app, filter_cons_False, filter_nil, app_nil_r
    by (simpl; congruence).
Qed.

(** [join_touches_only_its_pair] at work: a join refused by the store, and
    the count of another event after a join the store has run. *)
Lemma join_touches_only_its_pair_witness :
  (EventsScreen.handleJoinEvent anon_key (Some "v1") "e2" "p9" 2000
     Samples.d_attended).1
  = Samples.d_attended
  ∧ Spec.row_count
      (EventsScreen.handleJoinEvent service_role_key (Some "v1") "e2" "p9" 2000
         Samples.d_attended).1
      "e1"
    = Spec.row_count Samples.d_attended "e1".
Proof.
  split.
  - apply (join_touches_only_its_pair anon_key Samples.d_attended "v1" "e2" "p9" 2000).
    discriminate.
  - apply (join_touches_only_its_pair service_role_key Samples.d_attended
             "v1" "e2" "p9" 2000).
    discriminate.
Defined.

(** A leave touches nothing but the Participation rows of its own pair.  A
    leave the store refuses reports the refusal, shows the failure toast and
    changes nothing.  A leave the store runs never fails: it reports no error
    and shows the success toast even when the volunteer holds no row for the
    event, in which case the store is left exactly as it is; otherwise it
    removes the rows of that volunteer for that event, whatever their status,
    and nothing else, so that no row is left for the pair. *)
Theorem leave_removes_own_rows_only (key : api_key) (d : db) (V E : string) :
  let r := EventsScreen.handleLeaveEvent key (Some V) E d in
  users r.1 = users d ∧ events r.1 = events d
  ∧ notifications r.1 = notifications d
  ∧ event_participants r.1 `sublist_of` event_participants d
  ∧ EventsScreen.error r.2 = refused key
  ∧ (refused key ≠ None →
     r.1 = d
     ∧ EventsScreen.shown r.2 = Some (EventsScreen.toast_error "Failed to leave event"))
  ∧ (refused key = None →
     EventsScreen.shown r.2
     = Some (EventsScreen.toast_success "Successfully left the event")
     ∧ rows_for E V r.1 = []
     ∧ ∀ p, p ∈ event_participants r.1
            ↔ p ∈ event_participants d ∧ ¬ (p_event_id p = E ∧ p_volunteer_id p = V))
  ∧ (rows_for E V d = [] → r.1 = d).
Proof.
  intros r. subst r. destruct (refused key) as [err|] eqn:Hkey.
  { rewrite (handleLeaveEvent_refused key V E d err Hkey). simpl.
    by repeat split. }
  rewrite handleLeaveEvent_answered by done. simpl.
  split; [done|]. split; [done|]. split; [done|].
  split; [apply sublist_filter|]. split; [done|]. split; [done|]. split.
  - intros _. split; [done|]. split.
    + apply rows_for_nil_iff. intros (p & Hp & HE & HV). simpl in Hp.
      apply list_elem_of_filter in Hp as [Hn _]. by apply Hn.
    + intros p. rewrite list_elem_of_filter. tauto.
  - intros Hnone. unfold set_event_participants.
    rewrite filter_all_hold; [apply db_eta|].
    intros p Hp. by apply (no_row_for_pair E V d).
Qed.

(** [leave_removes_own_rows_only] at work: v1, who attended e1, leaves it
    and the store refuses; v1 leaves e2, which they never joined, and the
    store runs the statement. *)
Lemma leave_removes_own_rows_only_witness :
  (EventsScreen.handleLeaveEvent anon_key (Some "v1") "e1" Samples.d_attended).1
  = Samples.d_attended
  ∧ (EventsScreen.handleLeaveEvent service_role_key (Some "v1") "e2"
       Samples.d_attended).1
    = Samples.d_attended.
Proof.
  split.
  - refine (proj1 (proj1 (proj2 (proj2 (proj2 (proj2 (proj2
              (leave_removes_own_rows_only anon_key Samples.d_attended "v1" "e1"))))))
              _)).
    discriminate.
  - apply (leave_removes_own_rows_only service_role_key Samples.d_attended "v1" "e2").
    reflexivity.
Defined.

(** When the store runs the two statements, for a volunteer V holding a
    Participation row for event E (the pair being unique in the store),
    leaving E and joining it again ends in the same store, with the same
    outcome, as a single join on the initial store without that row; and
    when the event and the volunteer exist the final store holds exactly one
    row for the pair, with status joined and 0 hours, whatever the old row
    recorded. *)
Theorem leave_then_join_is_single_join (key : api_key) (d : db)
    (V E new_id : string) (now : Z) (r : participant_row) :
  refused key = None →
  unique_event_volunteer d →
  r ∈ event_participants d → p_event_id r = E → p_volunteer_id r = V →
  let gone := EventsScreen.handleLeaveEvent key (Some V) E d in
  EventsScreen.error gone.2 = None
  ∧ EventsScreen.handleJoinEvent key (Some V) E new_id now gone.1
    = EventsScreen.handleJoinEvent key (Some V) E new_id now (Spec.without_row r d)
  ∧ (Exists (λ e, e_id e = E) (events d) → Exists (λ u, u_id u = V) (users d) →
     let final := EventsScreen.handleJoinEvent key (Some V) E new_id now gone.1 in
     EventsScreen.error final.2 = None
     ∧ rows_for E V final.1
       = [{| p_id := new_id; p_event_id := E; p_volunteer_id := V;
             p_status := joined; p_hours := Some 0%Z;
             p_created_at := now; p_updated_at := now |}]).
Proof.
  intros Hkey Huniq Hr HE HV gone.
  assert (gone.1 = Spec.without_row r d) as Hleft
    by by apply leave_removes_the_row.
  split; [by subst gone; rewrite handleLeaveEvent_answered|].
  split; [by rewrite Hleft|].
  intros He Hu final. subst final. rewrite Hleft.
  assert (rows_for E V (Spec.without_row r d) = []) as Hnone.
  { apply rows_for_nil_iff. intros (p & Hp & HpE & HpV).
    unfold Spec.without_row in Hp. simpl in Hp.
    apply list_elem_of_filter in Hp as [Hne Hp]. apply Hne.
    apply (NoDup_fmap_eq pair_key (event_participants d)); try done.
    unfold pair_key. congruence. }
  destruct (handleJoinEvent_cases key V E new_id now (Spec.without_row r d) Hkey)
    as [[Hrows _]|[(_ & Hfk & _)|(_ & _ & Heq)]]; [done|tauto|].
  rewrite Heq. simpl. split; [done|].
  unfold rows_for in *. simpl in *.
  rewrite filter_app, Hnone. simpl. by rewrite filter_cons_True.
Qed.

(** [leave_then_join_is_single_join] at work: v1, who attended e1 for 4
    hours, leaves and joins again. *)
Lemma leave_then_join_is_single_join_witness :
  let gone := EventsScreen.handleLeaveEvent service_role_key (Some "v1") "e1"
                Samples.d_attended in
  EventsScreen.handleJoinEvent service_role_key (Some "v1") "e1" "p3" 3000 gone.1
  = EventsScreen.handleJoinEvent service_role_key (Some "v1") "e1" "p3" 3000
      (Spec.without_row (Samples.mk_participant "p1" "e1" "v1" attended 4 500)
                        Samples.d_attended).
Proof.
  intros gone.
  refine (proj1 (proj2 (leave_then_join_is_single_join service_role_key
            Samples.d_attended "v1" "e1" "p3" 3000
            (Samples.mk_participant "p1" "e1" "v1" attended 4 500) _ _ _ _ _))).
  - reflexivity.
  - unfold unique_event_volunteer. apply (bool_decide_unpack _). vm_compute. exact I.
  - left.
  - reflexivity.
  - reflexivity.
Defined.

(* --------------------------------------------------------------------- *)
(** ** The events list *)
(* --------------------------------------------------------------------- *)

#[local] Existing Instance EventsScreen.embedded_filter_dec.
#[local] Existing Instance EventsScreen.top_level_filter_dec.

(** The shape of the list computed from the answer of the store. *)
Lemma fetchEvents_shape uid flt now d :
  EventsScreen.fetchEvents_with EmbedLeft uid flt now d
  = (λ e, EventsScreen.process uid d
            (e, embed_event_participants (EventsScreen.embedded_filter uid flt) d e))
      <$> merge_sort date_asc (filter (EventsScreen.top_level_filter flt now) (events d)).
Proof.
  unfold EventsScreen.fetchEvents_with. simpl.
  by rewrite <- list_fmap_compose.
Qed.

Lemma fetchEvents_rows uid flt now d :
  EventsScreen.row <$> EventsScreen.fetchEvents_with EmbedLeft uid flt now d
  = merge_sort date_asc (filter (EventsScreen.top_level_filter flt now) (events d)).
Proof.
  rewrite fetchEvents_shape, <- list_fmap_compose.
  rewrite <- (list_fmap_id (merge_sort _ _)) at 2. by apply list_fmap_ext.
Qed.

(** Loading the events list.  When the store answers, the list is in
    ascending order of date; under the filter "all" it holds every event of
    the catalog once, and under "upcoming" exactly the events dated at or
    after the time of the query; no toast is shown.  When the store refuses
    the query, under any filter, the list keeps its previous value and the
    toast 'Failed to load events' is shown.  Without a signed-in user nothing
    happens. *)
Theorem events_list_sorted_and_complete (key : api_key) (uid : string) (now : Z)
    (d : db) (prev : list EventsScreen.Event) :
  let load flt := EventsScreen.fetchEvents key (Some uid) flt now d prev in
  let all := EventsScreen.row <$> (load EventsScreen.filter_all).1 in
  let coming := EventsScreen.row <$> (load EventsScreen.filter_upcoming).1 in
  (refused key = None →
   Sorted date_asc all ∧ all ≡ₚ events d
   ∧ Sorted date_asc coming
   ∧ coming ≡ₚ filter (λ e, (now ≤ e_date e)%Z) (events d)
   ∧ ∀ flt, (load flt).2 = None)
  ∧ (refused key ≠ None →
     ∀ flt, load flt = (prev, Some (EventsScreen.toast_error "Failed to load events")))
  ∧ (∀ flt, EventsScreen.fetchEvents key None flt now d prev = (prev, None)).
Proof.
  intros load all coming. subst all coming load. cbv beta.
  split; [|split; [|done]].
  - intros Hkey.
    assert (∀ flt, (EventsScreen.fetchEvents key (Some uid) flt now d prev).2 = None)
      as Hquiet by (intros flt; by rewrite fetchEvents_answered).
    rewrite !fetchEvents_answered by done. simpl.
    rewrite !fetchEvents_rows.
    change (filter (EventsScreen.top_level_filter EventsScreen.filter_all now) (events d))
      with (filter (λ _ : event_row, True) (events d)).
    rewrite filter_always.
    split; [apply Sorted_merge_sort, _|]. split; [apply merge_sort_Permutation|].
    split; [apply Sorted_merge_sort, _|]. split; [apply merge_sort_Permutation|].
    exact Hquiet.
  - intros Hkey flt. by apply fetchEvents_refused.
Qed.

(** [events_list_sorted_and_complete] at work: the list of all events, the
    store answering; and the toast, the store refusing. *)
Lemma events_list_sorted_and_complete_witness :
  EventsScreen.row
    <$> (EventsScreen.fetchEvents service_role_key (Some "v1") EventsScreen.filter_all
           0 Samples.d_attended []).1
  ≡ₚ events Samples.d_attended
  ∧ EventsScreen.fetchEvents anon_key (Some "v1") EventsScreen.filter_all 0
      Samples.d_attended []
    = ([], Some (EventsScreen.toast_error "Failed to load events")).
Proof.
  split.
  - destruct (events_list_sorted_and_complete service_role_key "v1" 0
                Samples.d_attended []) as [H _].
    destruct H as (_ & H & _); [reflexivity|]. exact H.
  - destruct (events_list_sorted_and_complete anon_key "v1" 0
                Samples.d_attended []) as (_ & H & _).
    apply H. discriminate.
Defined.

(* --------------------------------------------------------------------- *)
(** ** Searching the events list *)
(* --------------------------------------------------------------------- *)

Lemma append_nil_l (b : string) : String.append "" b = b.
Proof. reflexivity. Qed.

Lemma append_cons (x : Ascii.ascii) (a b : string) :
  String.append (String x a) b = String x (String.append a b).
Proof. reflexivity. Qed.

Lemma append_assoc (a b c : string) :
  String.append (String.append a b) c = String.append a (String.append b c).
Proof.
  induction a as [|x a IH]; [by rewrite !append_nil_l|].
  by rewrite !append_cons, IH.
Qed.

Lemma prefix_spec (t s : string) :
  String.prefix t s = true ↔ ∃ b, s = String.append t b.
Proof.
  revert s. induction t as [|x t IH]; intros s.
  - split; [intros _; by exists s|]. intros _. by destruct s.
  - destruct s as [|y s]; simpl.
    + split; [done|]. intros [b Hb]. by rewrite append_cons in Hb.
    + destruct (Ascii.ascii_dec x y) as [->|Hne].
      * rewrite IH. split; intros [b Hb]; exists b.
        -- by rewrite append_cons, Hb.
        -- rewrite append_cons in Hb. congruence.
      * split; [done|]. intros [b Hb]. rewrite append_cons in Hb. congruence.
Qed.

Lemma includes_spec (s t : string) :
  JSString.includes s t = true
  ↔ ∃ a b, s = String.append a (String.append t b).
Proof.
  induction s as [|x s IH].
  - change (JSString.includes "" t) with (String.prefix t "" || false).
    rewrite orb_false_r, prefix_spec. split.
    + intros [b Hb]. by exists EmptyString, b.
    + intros (a & b & Hab). destruct a; [by exists b|done].
  - change (JSString.includes (String x s) t)
      with (String.prefix t (String x s) || JSString.includes s t).
    rewrite orb_true_iff, prefix_spec, IH. split.
    + intros [[b Hb]|(a & b & Hab)].
      * by exists EmptyString, b.
      * exists (String x a), b. by rewrite append_cons, Hab.
    + intros (a & b & Hab). destruct a as [|y a].
      * left. by exists b.
      * right. exists a, b. rewrite append_cons in Hab. congruence.
Qed.

Lemma includes_empty (s : string) : JSString.includes s "" = true.
Proof. apply includes_spec. by exists EmptyString, s. Qed.

Lemma includes_trans (s t u : string) :
  JSString.includes s t = true → JSString.includes t u = true →
  JSString.includes s u = true.
Proof.
  rewrite !includes_spec. intros (a & b & ->) (a' & b' & ->).
  exists (String.append a a'), (String.append b' b).
  by rewrite !append_assoc.
Qed.

Section search.
Variable toLowerCase : string → string.

(** With an empty search term every event is shown; and a search term that
    contains another one (in lower case) can only narrow what the other one
    shows: searching for it in the whole list or in the results of the other
    gives the same events. *)
Theorem search_narrows (events : list EventsScreen.Event) (t1 t2 : string) :
  toLowerCase "" = "" →
  JSString.includes (toLowerCase t2) (toLowerCase t1) = true →
  EventsScreen.filteredEvents toLowerCase "" events = events
  ∧ EventsScreen.filteredEvents toLowerCase t2 events
    = EventsScreen.filteredEvents toLowerCase t2
        (EventsScreen.filteredEvents toLowerCase t1 events)
  ∧ EventsScreen.filteredEvents toLowerCase t2 events
    `sublist_of` EventsScreen.filteredEvents toLowerCase t1 events.
Proof.
  intros Hempty Hin.
  assert (∀ x, JSString.includes x (toLowerCase t2) = true →
               JSString.includes x (toLowerCase t1) = true) as Hnarrow.
  { intros x Hx. by eapply includes_trans. }
  assert (EventsScreen.filteredEvents toLowerCase t2 events
          = EventsScreen.filteredEvents toLowerCase t2
              (EventsScreen.filteredEvents toLowerCase t1 events)) as Heq.
  { unfold EventsScreen.filteredEvents.
    rewrite list_filter_filter. apply list_filter_iff. intros ev.
    rewrite !orb_true_iff. split; [|tauto].
    intros Hev. split; [done|]. destruct Hev as [[?|?]|?]; auto. }
  split; [|split; [done|]].
  - unfold EventsScreen.filteredEvents.
    apply filter_all_hold. intros ev _. by rewrite Hempty, includes_empty.
  - rewrite Heq. unfold EventsScreen.filteredEvents at 1. apply sublist_filter.
Qed.

End search.

(** [search_narrows] at work on a list of two events: the term "NILE"
    narrows the results of the term "e". *)
Lemma search_narrows_witness :
  let events := Samples.listed in
  EventsScreen.filteredEvents Samples.ascii_lower "" events = events
  ∧ EventsScreen.filteredEvents Samples.ascii_lower "NILE" events
    `sublist_of` EventsScreen.filteredEvents Samples.ascii_lower "e" events.
Proof.
  intros events.
  destruct (search_narrows Samples.ascii_lower events "e" "NILE")
    as (Hall & _ & Hsub); [reflexivity|reflexivity|].
  by split.
Defined.


(* --------------------------------------------------------------------- *)
(** ** Totals of the dashboards and reports *)
(* --------------------------------------------------------------------- *)

Section counting.
Context {A K : Type} `{EqDecision K}.

Lemma length_filter_or_disjoint (P Q : A → Prop) `{∀ x, Decision (P x)}
    `{∀ x, Decision (Q x)} (l : list A) :
  (∀ x, x ∈ l → P x → Q x → False) →
  length (filter (λ x, P x ∨ Q x) l) = length (filter P l) + length (filter Q l).
Proof.
  induction l as [|a l IH]; intros Hdis; [done|].
  rewrite !filter_cons.
  specialize (IH (λ x Hx, Hdis x (list_elem_of_further _ _ _ Hx))).
  pose proof (Hdis a (list_elem_of_here _ _)) as Ha.
  destruct (decide (P a)), (decide (Q a)), (decide (P a ∨ Q a));
    simpl; try tauto; lia.
Qed.

Lemma sum_list_with_fmap {B} (f : B → nat) (g : A → B) (l : list A) :
  sum_list_with f (g <$> l) = sum_list_with (f ∘ g) l.
Proof. induction l as [|a l IH]; csimpl; [done|]. by rewrite IH. Qed.

Lemma sum_list_with_pointwise (f g : A → nat) (l : list A) :
  (∀ x, f x = g x) → sum_list_with f l = sum_list_with g l.
Proof. intros Hfg. induction l as [|a l IH]; csimpl; [done|]. by rewrite Hfg, IH. Qed.

(** Counting the rows of a table key by key, over keys without duplicates,
    counts each row whose key is listed once. *)
Lemma sum_counts_by_key (key : A → K) (ks : list K) (l : list A) :
  NoDup ks →
  sum_list_with (λ k, length (filter (λ x, key x = k) l)) ks
  = length (filter (λ x, key x ∈ ks) l).
Proof.
  induction ks as [|k ks IH]; intros Hnd.
  - simpl. symmetry. apply length_zero_iff_nil.
    destruct (filter _ l) as [|x xs] eqn:Hf; [done|].
    assert (x ∈ x :: xs) as Hx by left. rewrite <- Hf in Hx.
    apply list_elem_of_filter in Hx as [Hx _]. by apply elem_of_nil in Hx.
  - apply NoDup_cons in Hnd as [Hk Hnd]. simpl. rewrite IH by done.
    rewrite <- length_filter_or_disjoint.
    + f_equal. apply list_filter_iff. intros x. rewrite elem_of_cons. tauto.
    + intros x _ <- Hin. by apply Hk.
Qed.

End counting.

Lemma status_partition (l : list participant_row) :
  length l
  = length (filter (λ p, p_status p = attended) l)
    + length (filter (λ p, p_status p = joined) l)
    + length (filter (λ p, p_status p = cancelled) l).
Proof.
  induction l as [|p l IH]; [done|].
  rewrite !filter_cons. destruct (p_status p) eqn:Hst; simpl.
  all: repeat (rewrite decide_True by done || rewrite decide_False by done);
       simpl; lia.
Qed.

(** When the store answers the query, in every record of the event report
    the participants are the attended, the joined and the cancelled rows of
    the event together, so that the attended never outnumber the
    participants. *)
Theorem report_counts_by_status (key : api_key) (d : db)
    (prev : list AdminScreen.EventReport) :
  refused key = None →
  Forall (λ r,
            AdminScreen.participant_count r
            = (AdminScreen.attended_count r
               + length (filter (λ p, p_event_id p = AdminScreen.er_id r
                                      ∧ p_status p = joined)
                                (event_participants d))
               + length (filter (λ p, p_event_id p = AdminScreen.er_id r
                                      ∧ p_status p = cancelled)
                                (event_participants d)))%nat
            ∧ (AdminScreen.attended_count r ≤ AdminScreen.participant_count r)%nat)
         (AdminScreen.fetchEventReports key d prev).
Proof.
  intros Hkey. rewrite fetchEventReports_answered by done.
  apply Forall_fmap, Forall_forall.
  intros e _. simpl. rewrite embed_all_rows.
  set (rows := filter (λ p, p_event_id p = e_id e) (event_participants d)).
  pose proof (status_partition rows) as Hpart.
  assert (∀ st, length (filter (λ p, p_status p = st) rows)
                = length (filter (λ p, p_event_id p = e_id e ∧ p_status p = st)
                                 (event_participants d))) as Hst.
  { intros st. subst rows. rewrite list_filter_filter. f_equal.
    apply list_filter_iff. tauto. }
  rewrite (Hst joined), (Hst cancelled) in Hpart. lia.
Qed.

(** [report_counts_by_status] at work: e1 with an attended and a joined
    row. *)
Lemma report_counts_by_status_witness :
  Forall (λ r, (AdminScreen.attended_count r ≤ AdminScreen.participant_count r)%nat)
         (AdminScreen.fetchEventReports service_role_key Samples.d_attended []).
Proof.
  eapply Forall_impl.
  - apply (report_counts_by_status service_role_key Samples.d_attended []).
    reflexivity.
  - intros r [_ Hle]. exact Hle.
Defined.

(** When the store answers the queries, on a catalog without duplicate
    event ids, the participant counts of the list of all events add up to the
    number of Participation rows that reference an event of the catalog: to
    the total participations of the admin dashboard when every row does,
    never to more. *)
Theorem participant_counts_add_up (key : api_key) (uid : string) (now now' : Z)
    (d : db) (prev : list EventsScreen.Event) :
  refused key = None →
  NoDup (e_id <$> events d) →
  let shown := sum_list (EventsScreen.participant_count
                           <$> (EventsScreen.fetchEvents key (Some uid)
                                  EventsScreen.filter_all now d prev).1) in
  let total := AdminScreen.totalParticipations (AdminScreen.fetchStats key now' d) in
  (shown ≤ total)%nat
  ∧ ((∀ p, p ∈ event_participants d → p_event_id p ∈ e_id <$> events d) →
     shown = total).
Proof.
  intros Hkey Hnd shown total.
  assert (shown = length (filter (λ p, p_event_id p ∈ e_id <$> events d)
                                 (event_participants d))) as ->.
  { subst shown. rewrite fetchEvents_answered by done. simpl.
    rewrite fetchEvents_shape, <- list_fmap_compose.
    change (filter (EventsScreen.top_level_filter EventsScreen.filter_all now)
                   (events d))
      with (filter (λ _ : event_row, True) (events d)).
    rewrite filter_always, sum_list_with_fmap, merge_sort_Permutation.
    rewrite <- (sum_counts_by_key p_event_id) by done.
    rewrite sum_list_with_fmap. apply sum_list_with_pointwise.
    intros e. simpl. by rewrite embed_all_rows. }
  assert (total = length (event_participants d)) as ->.
  { subst total. unfold AdminScreen.fetchStats, AdminScreen.count_or_zero.
    by rewrite Hkey. }
  split; [apply length_filter|].
  intros Hfk. by rewrite filter_all_hold.
Qed.

(** [participant_counts_add_up] at work: two events, two rows. *)
Lemma participant_counts_add_up_witness :
  sum_list (EventsScreen.participant_count
              <$> (EventsScreen.fetchEvents service_role_key (Some "v1")
                     EventsScreen.filter_all 0 Samples.d_attended []).1)
  = AdminScreen.totalParticipations
      (AdminScreen.fetchStats service_role_key 0 Samples.d_attended).
Proof.
  apply (participant_counts_add_up service_role_key "v1" 0 0 Samples.d_attended []).
  - reflexivity.
  - apply (bool_decide_unpack _). vm_compute. exact I.
  - intros p Hp. each_row Hp; simpl; left.
Defined.

(** When the store answers the queries, on accounts without duplicate ids,
    the totals of the volunteer report add up to the number of Participation
    rows held by volunteer accounts; rows held by other accounts (an admin
    who joined an event) are in the total participations of the dashboard but
    in no record of the report. *)
Theorem volunteer_totals_add_up (key : api_key) (now : Z) (d : db)
    (prev : list AdminScreen.VolunteerReport) :
  refused key = None →
  NoDup (u_id <$> users d) →
  let reported := sum_list (AdminScreen.total_events
                              <$> AdminScreen.fetchVolunteerReports key d prev) in
  reported
  = length (filter (λ p, Exists (λ u, u_id u = p_volunteer_id p
                                      ∧ u_role u = volunteer) (users d))
                   (event_participants d))
  ∧ (reported
     ≤ AdminScreen.totalParticipations (AdminScreen.fetchStats key now d))%nat.
Proof.
  intros Hkey Hnd reported.
  assert (AdminScreen.totalParticipations (AdminScreen.fetchStats key now d)
          = length (event_participants d)) as ->.
  { unfold AdminScreen.fetchStats, AdminScreen.count_or_zero. by rewrite Hkey. }
  assert (reported
          = length (filter (λ p, Exists (λ u, u_id u = p_volunteer_id p
                                              ∧ u_role u = volunteer) (users d))
                           (event_participants d))) as ->;
    [|split; [done|apply length_filter]].
  subst reported. rewrite fetchVolunteerReports_answered by done.
  rewrite <- list_fmap_compose, sum_list_with_fmap, merge_sort_Permutation.
  set (vols := filter (λ u, u_role u = volunteer) (users d)).
  transitivity (sum_list_with
                  (λ k, length (filter (λ p, p_volunteer_id p = k)
                                       (event_participants d)))
                  (u_id <$> vols)).
  { by rewrite sum_list_with_fmap. }
  rewrite sum_counts_by_key.
  - f_equal. apply list_filter_iff. intros p.
    rewrite list_elem_of_fmap, Exists_exists. subst vols. split.
    + intros (u & Hid & Hu). apply list_elem_of_filter in Hu as [Hrole Hu].
      exists u. by rewrite Hid.
    + intros (u & Hu & Hid & Hrole). exists u. split; [done|].
      by apply list_elem_of_filter.
  - eapply sublist_NoDup; [done|]. apply fmap_sublist, sublist_filter.
Qed.

(** [volunteer_totals_add_up] at work: both rows are held by volunteers. *)
Lemma volunteer_totals_add_up_witness :
  sum_list (AdminScreen.total_events
              <$> AdminScreen.fetchVolunteerReports service_role_key
                    Samples.d_attended [])
  = 2.
Proof.
  destruct (volunteer_totals_add_up service_role_key 0 Samples.d_attended [])
    as [-> _].
  - reflexivity.
  - apply (bool_decide_unpack _). vm_compute. exact I.
  - by vm_compute.
Defined.

Lemma size_list_to_set_le (l : list string) :
  (size (list_to_set l : gset string) ≤ length l)%nat.
Proof.
  unfold size, set_size. simpl. apply submseteq_length, NoDup_submseteq.
  - apply NoDup_elements.
  - intros v. by rewrite elem_of_elements, elem_of_list_to_set.
Qed.

(** The admin dashboard under the policies of the schema: the three queries
    that pass through the policies on [users] are refused and the dashboard
    shows 0 volunteers, 0 participations and 0 active volunteers whatever the
    store holds, next to the true number of events.  Under any key the active
    volunteers never outnumber the Participation rows counted, however many
    rows one volunteer holds, and asking later, on the same store, can only
    lower their count: the window of 30 days has moved on and no row has come
    back into it. *)
Theorem active_volunteers_bounds (key : api_key) (now now' : Z) (d : db) :
  (refused key ≠ None →
   AdminScreen.fetchStats key now d
   = {| AdminScreen.totalVolunteers := 0;
        AdminScreen.totalEvents := length (events d);
        AdminScreen.totalParticipations := 0;
        AdminScreen.activeVolunteers := 0 |})
  ∧ AdminScreen.totalEvents (AdminScreen.fetchStats key now d) = length (events d)
  ∧ (AdminScreen.activeVolunteers (AdminScreen.fetchStats key now d)
     ≤ AdminScreen.totalParticipations (AdminScreen.fetchStats key now d))%nat
  ∧ ((now ≤ now')%Z →
     (AdminScreen.activeVolunteers (AdminScreen.fetchStats key now' d)
      ≤ AdminScreen.activeVolunteers (AdminScreen.fetchStats key now d))%nat).
Proof.
  split; [apply fetchStats_refused|]. split; [done|].
  destruct (refused key) as [err|] eqn:Hkey.
  { rewrite !fetchStats_refused by (rewrite Hkey; discriminate). simpl.
    split; [lia|]. intros _. lia. }
  unfold AdminScreen.fetchStats, AdminScreen.count_or_zero,
    AdminScreen.data_or_nothing. rewrite Hkey. simpl. split.
  - etrans; [apply size_list_to_set_le|].
    rewrite length_fmap. apply length_filter.
  - intros Hlater. apply subseteq_size. intros v.
    rewrite !elem_of_list_to_set, !list_elem_of_fmap.
    intros (p & -> & Hp). exists p. split; [done|].
    apply list_elem_of_filter in Hp as [Hge Hp].
    apply list_elem_of_filter. split; [lia|done].
Qed.

(** [active_volunteers_bounds] at work: the dashboard of the app on a store
    with three Participation rows and two volunteers; and, the store
    answering, nobody active 30 days on. *)
Lemma active_volunteers_bounds_witness :
  AdminScreen.fetchStats anon_key 3000000000 Samples.d_recent
  = {| AdminScreen.totalVolunteers := 0;
       AdminScreen.totalEvents := 2;
       AdminScreen.totalParticipations := 0;
       AdminScreen.activeVolunteers := 0 |}
  ∧ (AdminScreen.activeVolunteers
       (AdminScreen.fetchStats service_role_key 6000000000 Samples.d_recent)
     ≤ AdminScreen.activeVolunteers
         (AdminScreen.fetchStats service_role_key 3000000000 Samples.d_recent))%nat.
Proof.
  split.
  - refine (proj1 (active_volunteers_bounds anon_key 3000000000 0 Samples.d_recent) _).
    discriminate.
  - apply (active_volunteers_bounds service_role_key 3000000000 6000000000
             Samples.d_recent).
    lia.
Defined.

(** When the store answers the query, at a time [now] by which every
    Participation row has been created, the active volunteers reported by
    [fetchStats] are as many as the distinct volunteer ids that have a
    Participation row created within the trailing 30 days from [now]; at any
    time they are at least as many, the query having no upper bound. *)
Theorem active_volunteers_distinct (key : api_key) (now : Z) (d : db) :
  refused key = None →
  (Spec.active_volunteers now d
   ≤ AdminScreen.activeVolunteers (AdminScreen.fetchStats key now d))%nat
  ∧ ((∀ p, p ∈ event_participants d → (p_created_at p ≤ now)%Z) →
     AdminScreen.activeVolunteers (AdminScreen.fetchStats key now d)
     = Spec.active_volunteers now d).
Proof.
  intros Hkey.
  unfold AdminScreen.fetchStats, AdminScreen.data_or_nothing, Spec.active_volunteers.
  rewrite Hkey. simpl. split.
  - apply subseteq_size. intros v.
    rewrite !elem_of_list_to_set, !list_elem_of_fmap.
    intros (p & -> & Hp). exists p. split; [done|].
    apply list_elem_of_filter in Hp as [Hin Hp].
    apply list_elem_of_filter. split; [|done].
    unfold Spec.thirty_days in Hin. lia.
  - intros Hpast. do 3 f_equal. apply filter_ext_elem_of. intros p Hp.
    specialize (Hpast p Hp). unfold Spec.thirty_days. lia.
Qed.

(** [active_volunteers_distinct] at work: of v1 (two recent rows) and v2
    (one old row), one volunteer is active. *)
Lemma active_volunteers_distinct_witness :
  AdminScreen.activeVolunteers
    (AdminScreen.fetchStats service_role_key 3000000000 Samples.d_recent)
  = Spec.active_volunteers 3000000000 Samples.d_recent.
Proof.
  apply (active_volunteers_distinct service_role_key 3000000000 Samples.d_recent).
  - reflexivity.
  - intros p Hp. each_row Hp; simpl; lia.
Defined.

(* --------------------------------------------------------------------- *)
(** ** The notification list and the store *)
(* --------------------------------------------------------------------- *)

Section sort_fmap.
Context {A : Type} (R : relation A) `{∀ x y, Decision (R x y)}.
Context (f : A → A) (Hf : ∀ x y, R (f x) (f y) ↔ R x y).






Lemma filter_fmap_same (P : A → Prop) `{∀ x, Decision (P x)} (l : list A) :
  (∀ x, P (f x) ↔ P x) → filter P (f <$> l) = f <$> filter P l.
Proof.
  intros HP. induction l as [|a l IH]; [done|].
  rewrite fmap_cons, !filter_cons, IH.
  destruct (decide (P a)) as [Ha|Ha].
  - by rewrite decide_True by by apply HP.
  - by rewrite decide_False by by rewrite HP.
Qed.

End sort_fmap.

Lemma mark_read_created n : n_created_at (mark_read n) = n_created_at n.
Proof. done. Qed.




Lemma markAsRead_list session nid d prev :
  (NotificationContext.markAsRead session nid d prev).1.2
  = (λ n, if decide (n_id n = nid) then mark_read n else n) <$> prev.
Proof. by destruct session. Qed.


Lemma markAllAsRead_list uid d prev :
  (NotificationContext.markAllAsRead (Some uid) d prev).1.2 = mark_read <$> prev.
Proof. done. Qed.

Lemma markAllAsRead_store uid d prev :
  (NotificationContext.markAllAsRead (Some uid) d prev).1.1
  = set_notifications
      ((λ n, if decide ((n_user_id n = uid ∧ n_read_status n = false)
                        ∧ n_user_id n = uid)
             then mark_read n else n) <$> notifications d) d.
Proof. done. Qed.


(** [markAsRead] lowers the unread count of the list by the number of its
    unread entries that carry the id, and never raises it: the count is
    unchanged when the id is not in the list or the notification is read
    already. *)
Theorem markAsRead_unread_count (session : option string) (nid : string) (d : db)
    (prev : list notification_row) :
  (NotificationContext.unreadCount
     (NotificationContext.markAsRead session nid d prev).1.2
   + length (filter (λ n, n_id n = nid ∧ n_read_status n = false) prev)
   = NotificationContext.unreadCount prev)%nat.
Proof.
  rewrite markAsRead_list. unfold NotificationContext.unreadCount.
  induction prev as [|n prev IH]; [done|].
  rewrite fmap_cons, !filter_cons.
  destruct (decide (n_id n = nid)) as [Hid|Hid];
    destruct (n_read_status n) eqn:Hread; simpl; rewrite ?Hread;
    repeat case_decide; simpl in *; try lia; try tauto; try discriminate.
Qed.

(** After [markAllAsRead] nothing is unread for the signed-in user, in the
    list held by the client and in the store alike (so a later fetch shows
    no unread notification), no error is reported, and the notifications of
    the other users are left as they are. *)
Theorem markAllAsRead_clears (uid : string) (d : db)
    (prev prev' : list notification_row) :
  let r := NotificationContext.markAllAsRead (Some uid) d prev in
  r.2 = None
  ∧ NotificationContext.unreadCount r.1.2 = 0
  ∧ length r.1.2 = length prev
  ∧ NotificationContext.unreadCount
      (filter (λ n, n_user_id n = uid) (notifications r.1.1)) = 0
  ∧ NotificationContext.unreadCount
      (NotificationContext.fetchNotifications (Some uid) r.1.1 prev') = 0
  ∧ filter (λ n, n_user_id n ≠ uid) (notifications r.1.1)
    = filter (λ n, n_user_id n ≠ uid) (notifications d).
Proof.
  intros r. subst r. rewrite markAllAsRead_list, markAllAsRead_store.
  assert (∀ l : list notification_row,
            (∀ n, n ∈ l → n_read_status n = true) →
            NotificationContext.unreadCount l = 0) as Hzero.
  { intros l Hl. unfold NotificationContext.unreadCount.
    apply length_zero_iff_nil.
    destruct (filter _ l) as [|n ns] eqn:Hf; [done|].
    assert (n ∈ n :: ns) as Hn by left. rewrite <- Hf in Hn.
    apply list_elem_of_filter in Hn as [Hunread Hn].
    rewrite (Hl n Hn) in Hunread. done. }
  assert (∀ n, n ∈ filter (λ n, n_user_id n = uid)
                     ((λ n, if decide ((n_user_id n = uid ∧ n_read_status n = false)
                                       ∧ n_user_id n = uid)
                            then mark_read n else n) <$> notifications d) →
               n_read_status n = true) as Hread.
  { intros n [Hu (m & -> & Hm)%list_elem_of_fmap]%list_elem_of_filter.
    destruct (decide _) as [Hd|Hd]; [done|].
    simpl in Hu. destruct (n_read_status m); [done|tauto]. }
  split; [done|]. split.
  { apply Hzero. by intros n (m & -> & _)%list_elem_of_fmap. }
  split; [by rewrite length_fmap|]. split; [by apply Hzero|]. split.
  - apply Hzero. intros n Hn. apply Hread.
    rewrite fetchNotifications_sorted in Hn. apply subseteq_take in Hn.
    by rewrite merge_sort_Permutation in Hn.
  - simpl. rewrite (filter_fmap_same _ (λ n, n_user_id n ≠ uid))
      by (intros n; by destruct (decide _)).
    rewrite <- (list_fmap_id (filter _ (notifications d))) at 2.
    apply list_fmap_ext. intros i n Hn.
    apply list_elem_of_lookup_2, list_elem_of_filter in Hn as [Hother _].
    simpl. rewrite decide_False; [done|tauto].
Qed.

Lemma fetchNotifications_newest_first uid d prev :
  Sorted created_desc (NotificationContext.fetchNotifications (Some uid) d prev).
Proof.
  rewrite fetchNotifications_sorted.
  pose proof (StronglySorted_merge_sort created_desc
                (filter (λ n, n_user_id n = uid) (notifications d))) as Hs.
  rewrite <- (take_drop 50 (merge_sort _ _)) in Hs.
  apply StronglySorted_Sorted. by eapply StronglySorted_app_1_l.
Qed.

(** A notification pushed by the live subscription is put in front of the
    fetched list without regard to the limit of 50, so the list can hold 51
    entries; the unread count grows by one when the new notification is
    unread; and the list stays ordered newest first when the new
    notification is no older than the ones already held. *)
Theorem push_goes_in_front (uid : string) (d : db) (prev : list notification_row)
    (new : notification_row) :
  let shown := NotificationContext.fetchNotifications (Some uid) d prev in
  let pushed := NotificationContext.on_insert new shown in
  length pushed
  = S (min 50 (length (filter (λ n, n_user_id n = uid) (notifications d))))
  ∧ NotificationContext.unreadCount pushed
    = ((if n_read_status new then 0 else 1)
       + NotificationContext.unreadCount shown)%nat
  ∧ (Forall (λ n, (n_created_at n ≤ n_created_at new)%Z) shown →
     Sorted created_desc pushed).
Proof.
  intros shown pushed. subst pushed. unfold NotificationContext.on_insert.
  split; [|split].
  - simpl. f_equal. subst shown.
    rewrite fetchNotifications_sorted, length_take.
    by rewrite (Permutation_length (merge_sort_Permutation _ _)).
  - unfold NotificationContext.unreadCount. rewrite filter_cons.
    destruct (n_read_status new); by rewrite ?decide_True, ?decide_False by done.
  - intros Hnewer. apply Sorted_cons; [apply fetchNotifications_newest_first|].
    destruct shown as [|n ns]; constructor.
    apply Forall_cons in Hnewer as [Hn _]. exact Hn.
Qed.

(** [push_goes_in_front] at work: a push on top of 50 fetched out of 51. *)
Lemma push_goes_in_front_witness :
  let new := Samples.mk_notification "new" "v1" false 100 in
  let pushed := NotificationContext.on_insert new
                  (NotificationContext.fetchNotifications (Some "v1")
                     (Samples.d_flood 51) []) in
  length pushed = 51 ∧ Sorted created_desc pushed.
Proof.
  intros new pushed.
  destruct (push_goes_in_front "v1" (Samples.d_flood 51) [] new)
    as (Hlen & _ & Hsorted).
  split; [exact Hlen|]. apply Hsorted.
  apply (bool_decide_unpack _). by vm_compute.
Defined.



(* --------------------------------------------------------------------- *)
(** ** The home screen *)
(* --------------------------------------------------------------------- *)



(* --------------------------------------------------------------------- *)
(** ** The report endpoint *)
(* --------------------------------------------------------------------- *)

Lemma single_Some {A} (l : list A) (x : A) : single l = Some x ↔ l = [x].
Proof.
  destruct l as [|y [|z l]]; simpl; split; try done; congruence.
Qed.

Section reports.
Variable getUser : option string → option string.

(** The report endpoint gives data to admins only: it answers 401 exactly
    when the token of the request belongs to no user, and it answers 200,
    the only answer that carries rows, only when the user it belongs to has
    exactly one profile row, of role admin, and the report type is events
    or volunteers. *)
Theorem reports_for_admins_only (authorization : option string)
    (reportType : string) (d : db) :
  let r := Server.reports getUser authorization reportType d in
  (Server.code r = 401 ↔ getUser (Server.accessToken authorization) = None)
  ∧ match Server.payload r with
    | Server.error_message _ => Server.code r ≠ 200
    | _ => Server.code r = 200
    end
  ∧ (Server.code r = 200 →
     ∃ uid u, getUser (Server.accessToken authorization) = Some uid
       ∧ filter (λ u, u_id u = uid) (users d) = [u]
       ∧ u_role u = admin
       ∧ (reportType = "events" ∨ reportType = "volunteers")).
Proof.
  intros r. subst r. unfold Server.reports.
  destruct (getUser (Server.accessToken authorization)) as [uid|]; simpl;
    [|by repeat split].
  destruct (single (filter (λ u, u_id u = uid) (users d))) as [u|] eqn:Hsingle;
    simpl; [|by repeat split].
  apply single_Some in Hsingle.
  case_bool_decide as Hrole; simpl; [by repeat split|].
  assert (u_role u = admin) as Hadmin.
  { destruct (decide (u_role u = admin)) as [|Hne]; [done|]. congruence. }
  destruct (decide (reportType = "events")) as [->|Hne]; simpl.
  { split; [done|]. split; [done|]. intros _. exists uid, u. tauto. }
  destruct (decide (reportType = "volunteers")) as [->|Hne']; simpl.
  { split; [done|]. split; [done|]. intros _. exists uid, u. tauto. }
  by repeat split.
Qed.

(** For an admin the events report of the server, whose client no policy
    restricts, holds every event of the catalog once, latest first, each with
    all its Participation rows: it has no limit. *)
Theorem server_events_report_complete (authorization : option string)
    (uid : string) (u : user_row) (d : db) :
  getUser (Server.accessToken authorization) = Some uid →
  filter (λ u, u_id u = uid) (users d) = [u] →
  u_role u = admin →
  ∃ l, Server.reports getUser authorization "events" d
       = {| Server.code := 200; Server.payload := Server.events_payload l |}
    ∧ l.*1 ≡ₚ events d
    ∧ Sorted date_desc l.*1
    ∧ Forall (λ r, r.2 = filter (λ p, p_event_id p = e_id r.1)
                                (event_participants d)) l.
Proof.
  intros Htoken Hprofile Hadmin. unfold Server.reports.
  rewrite Htoken, Hprofile. simpl. rewrite Hadmin.
  rewrite bool_decide_eq_false_2 by (intros Hne; by apply Hne).
  set (l := (λ e, (e, embed_event_participants (λ _, True) d e))
              <$> merge_sort date_desc (events d)).
  assert (l.*1 = merge_sort date_desc (events d)) as Hfst.
  { subst l. rewrite <- list_fmap_compose.
    rewrite <- (list_fmap_id (merge_sort _ _)) at 2. by apply list_fmap_ext. }
  exists l. split; [done|]. rewrite Hfst.
  split; [apply merge_sort_Permutation|].
  split; [apply Sorted_merge_sort, _|].
  apply Forall_fmap, Forall_forall. intros e _. simpl. apply embed_all_rows.
Qed.

End reports.

(** [reports_for_admins_only] at work: the token of the volunteer v1. *)
Lemma reports_for_admins_only_witness :
  Server.code (Server.reports Samples.token_user (Some "Bearer tok-v1") "events"
                 Samples.d_attended) ≠ 200.
Proof.
  intros H200.
  destruct (reports_for_admins_only Samples.token_user (Some "Bearer tok-v1")
              "events" Samples.d_attended) as (_ & _ & H).
  destruct (H H200) as (uid & u & Htoken & Hprofile & Hadmin & _).
  injection Htoken as <-. injection Hprofile as <-. discriminate Hadmin.
Defined.

(** [server_events_report_complete] at work: the admin a1 and eleven
    events. *)
Lemma server_events_report_complete_witness :
  ∃ l, Server.reports Samples.token_user (Some "Bearer tok-a1") "events"
         Samples.d_eleven
       = {| Server.code := 200; Server.payload := Server.events_payload l |}
    ∧ l.*1 ≡ₚ events Samples.d_eleven.
Proof.
  destruct (server_events_report_complete Samples.token_user
              (Some "Bearer tok-a1") "a1" (Samples.mk_user "a1" admin)
              Samples.d_eleven) as (l & Heq & Hperm & _); [reflexivity..|].
  by exists l.
Defined.

